(** * Task tracker: the SQLite store, the CLI commands of manage_alt.py and
      the synthetic data generator of seed.py.

    The store is embedded as three tables, each a list of rows in scan order
    (the order a SELECT without ORDER BY reads them, i.e. insertion order).
    SQL statements are functions on the store; Python functions that read or
    write the connection are computations in a small state-and-exception
    monad whose state is the store (manage_alt.py) or the store together
    with the two pseudo-random generators (seed.py). *)

From Stdlib Require Import ZArith QArith Qround Lia Lqa.
From stdpp Require Import base decidable option list strings sorting gmap.

Local Open Scope Z_scope.

(** ** Exceptions and the state-and-exception monad *)

(** The exceptions the two scripts raise. [SystemExit] messages are kept
    structured: each constructor carries the values the f-string
    interpolates. *)
Inductive Exn : Type :=
| StatusNotFound (name : string) (existing : list string)
    (* SystemExit(f"Status '{name}' not found. Available: {existing}") *)
| UserNotFound (uid : Z)        (* SystemExit(f"User id={uid} not found.") *)
| TaskNotFound (task_id : Z)    (* SystemExit(f"Task id={task_id} not found.") *)
| RuntimeError (msg : string)
| IntegrityError                (* sqlite3.IntegrityError *)
| OperationalError (msg : string) (* sqlite3.OperationalError: no such table *)
| ValueError                    (* random.sample: sample larger than population *)
| IndexError                    (* random.choice on an empty sequence *)
| OverflowError                 (* sqlite3: Python int too large to convert
                                   to SQLite INTEGER *)
| DatatypeMismatch              (* sqlite3.IntegrityError: datatype mismatch *)
| OSError.                      (* open() or a write to the file fails *)

Inductive Outcome (A : Type) : Type :=
| Ok (a : A)
| Raise (e : Exn).
Arguments Ok {A} a.
Arguments Raise {A} e.

(** A computation over a state [S]: it returns or raises, and in both cases
    leaves a state behind. *)
Definition M (S A : Type) : Type := S -> Outcome A * S.

Definition ret {S A} (a : A) : M S A := fun s => (Ok a, s).
Definition raise {S A} (e : Exn) : M S A := fun s => (Raise e, s).
Definition bind {S A B} (c : M S A) (k : A -> M S B) : M S B :=
  fun s => match c s with
           | (Ok a, s') => k a s'
           | (Raise e, s') => (Raise e, s')
           end.
Definition modify {S} (f : S -> S) : M S unit := fun s => (Ok tt, f s).

Notation "x <- c ;; k" := (bind c (fun x => k))
  (at level 100, c at next level, right associativity).
Notation "c ;;; k" := (bind c (fun _ => k))
  (at level 100, right associativity).

(** ** The data model *)

(** Timestamps are what CURRENT_TIMESTAMP yields: whole seconds. *)
Definition timestamp : Type := Z.

Record StatusRow : Type := mkStatus {
  status_id : Z;
  status_name : string
}.

Record UserRow : Type := mkUser {
  user_id : Z;
  fullname : string;
  email : string;
  user_created_at : timestamp
}.

Record TaskRow : Type := mkTask {
  task_id : Z;
  title : string;
  description : option string;   (* NULL, '' and a text are three states *)
  task_status_id : Z;
  task_user_id : Z;
  created_at : timestamp;
  updated_at : timestamp
}.

Record Store : Type := mkStore {
  status : list StatusRow;
  users : list UserRow;
  tasks : list TaskRow
}.

Global Instance StatusRow_eq_dec : EqDecision StatusRow.
Proof. solve_decision. Defined.
Global Instance UserRow_eq_dec : EqDecision UserRow.
Proof. solve_decision. Defined.
Global Instance TaskRow_eq_dec : EqDecision TaskRow.
Proof. solve_decision. Defined.

(** Modelled from the spec: sql/create_tables_alt.sql is not among the
    sources. The spec's data model gives the columns above, integer
    surrogate keys, UNIQUE on status.name and users.email, foreign keys
    from tasks to status and users, and for tasks.updated_at "default now,
    updated on status change". The UPDATE statement of cmd_update_status
    writes status_id only, so whether updated_at moves is the schema's
    doing (an AFTER UPDATE trigger); the schema records whether it has
    one. *)
Record Schema : Type := mkSchema {
  touch_updated_at : bool
}.

Definition spec_schema : Schema := {| touch_updated_at := true |}.

Definition empty_store : Store := {| status := []; users := []; tasks := [] |}.

(** SQLite's INTEGER: a signed 64-bit value. A key column holds no other,
    and sqlite3 refuses to bind a Python int outside this range to a
    parameter (OverflowError, before the statement runs). *)
Definition int64 (n : Z) : Prop := - 2 ^ 63 <= n < 2 ^ 63.
Global Instance int64_dec n : Decision (int64 n).
Proof. unfold int64. apply _. Defined.

(** The integer primary key the store gives a new row (the schema's
    surrogate key): one more than the largest in use, 1 in an empty
    table. *)
Definition next_id (ids : list Z) : Z := 1 + foldr Z.max 0 ids.

(** ** SQL statements *)

Module Sql.

(** SELECT id FROM status WHERE name = ?  (all rows, scan order) *)
Definition select_status_ids_by_name (name : string) (st : Store) : list Z :=
  status_id <$> filter (fun s => status_name s = name) (status st).

(** The BINARY collation on text: byte-wise comparison. *)
Definition String_le (a b : string) : Prop := String.leb a b = true.
Global Instance String_le_dec a b : Decision (String_le a b).
Proof. unfold String_le. apply _. Defined.

(** SELECT name FROM status ORDER BY name *)
Definition select_status_names_ordered (st : Store) : list string :=
  merge_sort String_le (status_name <$> status st).

(** SELECT id, fullname, email FROM users WHERE id = ? *)
Definition select_users_by_id (uid : Z) (st : Store) : list UserRow :=
  filter (fun u => user_id u = uid) (users st).

(** SELECT id FROM tasks WHERE id = ? *)
Definition select_tasks_by_id (tid : Z) (st : Store) : list TaskRow :=
  filter (fun t => task_id t = tid) (tasks st).

(** INSERT INTO tasks(title, description, status_id, user_id)
    VALUES (?, ?, ?, ?): the schema's two foreign keys are checked (both
    scripts set PRAGMA foreign_keys = ON), the key is generated, both
    timestamps default to the current time. Returns the generated key
    (lastrowid). *)
Definition insert_task (now : timestamp)
    (row : string * option string * Z * Z) : M Store Z :=
  fun st =>
    let '(ttl, desc, sid, uid) := row in
    if decide (sid ∈ status_id <$> status st) then
      if decide (uid ∈ user_id <$> users st) then
        let t := {| task_id := next_id (task_id <$> tasks st);
                    title := ttl; description := desc;
                    task_status_id := sid; task_user_id := uid;
                    created_at := now; updated_at := now |} in
        (Ok (task_id t),
         {| status := status st; users := users st;
            tasks := tasks st ++ [t] |})
      else (Raise IntegrityError, st)
    else (Raise IntegrityError, st).

(** What the UPDATE does to one row of tasks: the statement sets
    status_id; the schema's trigger, when present, sets updated_at. *)
Definition update_row (sch : Schema) (now : timestamp) (sid : Z)
    (t : TaskRow) : TaskRow :=
  {| task_id := task_id t; title := title t; description := description t;
     task_status_id := sid; task_user_id := task_user_id t;
     created_at := created_at t;
     updated_at := if touch_updated_at sch then now else updated_at t |}.

(** UPDATE tasks SET status_id = ? WHERE id = ?: every row with that id
    is rewritten; the foreign key is checked when a row is. *)
Definition update_task_status (sch : Schema) (now : timestamp)
    (sid tid : Z) : M Store unit :=
  fun st =>
    if decide (select_tasks_by_id tid st = [] ∨ sid ∈ status_id <$> status st)
    then
      (Ok tt,
       {| status := status st; users := users st;
          tasks := (fun t => if decide (task_id t = tid)
                             then update_row sch now sid t else t)
                   <$> tasks st |})
    else (Raise IntegrityError, st).

(** INSERT OR IGNORE INTO status(name) VALUES (?): a name already in the
    table violates the schema's UNIQUE(name) and the row is skipped. *)
Definition insert_or_ignore_status (name : string) : M Store unit :=
  fun st =>
    if decide (name ∈ status_name <$> status st) then (Ok tt, st)
    else
      (Ok tt,
       {| status := status st ++
                    [{| status_id := next_id (status_id <$> status st);
                        status_name := name |}];
          users := users st; tasks := tasks st |}).

(** INSERT INTO users(fullname, email) VALUES (?, ?): an email already in
    the table violates the schema's UNIQUE(email). *)
Definition insert_user (now : timestamp) (row : string * string)
    : M Store unit :=
  fun st =>
    let '(name, mail) := row in
    if decide (mail ∈ email <$> users st) then (Raise IntegrityError, st)
    else
      (Ok tt,
       {| status := status st;
          users := users st ++
                   [{| user_id := next_id (user_id <$> users st);
                       fullname := name; email := mail;
                       user_created_at := now |}];
          tasks := tasks st |}).

(** conn.executemany(sql, rows): the statement runs once per row, in
    order; [clock i] is the time at which the i-th execution reads
    CURRENT_TIMESTAMP. The first failure stops the batch. *)
Fixpoint executemany {St R A} (stmt : timestamp -> R -> M St A)
    (clock : nat -> timestamp) (rows : list R) : M St unit :=
  match rows with
  | [] => ret tt
  | r :: rest =>
      stmt (clock 0%nat) r ;;;
      executemany stmt (fun i => clock (S i)) rest
  end.

(** The sort key of ORDER BY t.updated_at DESC, t.id DESC, and the order
    it induces: [desc_key k1 k2] when k1 may stand before k2. *)
Definition desc_key (k1 k2 : Z * Z) : Prop :=
  k2.1 < k1.1 ∨ (k1.1 = k2.1 ∧ k2.2 <= k1.2).
Global Instance desc_key_dec k1 k2 : Decision (desc_key k1 k2).
Proof. unfold desc_key. apply _. Defined.

(** FROM tasks t JOIN status s ON s.id = t.status_id
                 JOIN users u ON u.id = t.user_id *)
Definition joined (st : Store) : list (TaskRow * StatusRow * UserRow) :=
  t ← tasks st;
  s ← filter (fun s => status_id s = task_status_id t) (status st);
  u ← filter (fun u => user_id u = task_user_id t) (users st);
  [(t, s, u)].

End Sql.

(** ** manage_alt.py *)

Module Manage.

Definition status_id_by_name (name : string) : M Store Z :=
  fun st =>
    match Sql.select_status_ids_by_name name st with
    | [] => (Raise (StatusNotFound name (Sql.select_status_names_ordered st)), st)
    | id :: _ => (Ok id, st)
    end.

(** conn.execute("SELECT ... WHERE id = ?", (uid,)) refuses a uid that is
    no 64-bit integer with OverflowError. The ids a table holds are 64-bit
    integers, so such a uid selects no row: the refusal is read off the
    miss (see [ensure_user_exists_binds_first] for the order of the
    source). *)
Definition ensure_user_exists (uid : Z) : M Store unit :=
  fun st =>
    match Sql.select_users_by_id uid st with
    | [] => if decide (int64 uid) then (Raise (UserNotFound uid), st)
            else (Raise OverflowError, st)
    | _ :: _ => (Ok tt, st)
    end.

(** As for [ensure_user_exists]: a task_id that is no 64-bit integer is
    refused when it is bound (see [ensure_task_exists_binds_first]). *)
Definition ensure_task_exists (tid : Z) : M Store unit :=
  fun st =>
    match Sql.select_tasks_by_id tid st with
    | [] => if decide (int64 tid) then (Raise (TaskNotFound tid), st)
            else (Raise OverflowError, st)
    | _ :: _ => (Ok tt, st)
    end.

(** A row of the result set of cmd_list_inprogress. *)
Record ListRow : Type := mkListRow {
  row_task_id : Z;
  row_title : string;
  row_user : string;
  row_email : string;
  row_created_at : timestamp;
  row_updated_at : timestamp
}.

Definition project (j : TaskRow * StatusRow * UserRow) : ListRow :=
  let '(t, _, u) := j in
  {| row_task_id := task_id t; row_title := title t;
     row_user := fullname u; row_email := email u;
     row_created_at := created_at t; row_updated_at := updated_at t |}.

Definition join_key (j : TaskRow * StatusRow * UserRow) : Z * Z :=
  (updated_at j.1.1, task_id j.1.1).
Definition row_key (r : ListRow) : Z * Z :=
  (row_updated_at r, row_task_id r).

(** The SELECT without its LIMIT clause. *)
Definition select_inprogress (st : Store) : list ListRow :=
  project <$>
    merge_sort (fun a b => Sql.desc_key (join_key a) (join_key b))
      (filter (fun j => status_name j.1.2 = "in progress"%string)
              (Sql.joined st)).

(** The command up to fetchall(); the value returned is [rows], which the
    command then prints and may export. The limit is written into the
    statement as a decimal literal: one of 2^63 or more is no integer to
    SQLite, and LIMIT rejects it (datatype mismatch). *)
Definition cmd_list_inprogress (limit : option Z) : M Store (list ListRow) :=
  fun st =>
    match limit with
    | Some n =>
        if decide (n ≠ 0 ∧ 0 < n) then
          if decide (n < 2 ^ 63)
          then (Ok (take (Z.to_nat n) (select_inprogress st)), st)
          else (Raise DatatypeMismatch, st)
        else (Ok (select_inprogress st), st)
    | None => (Ok (select_inprogress st), st)
    end.

(** The value returned is the id the command prints
    (last_insert_rowid()). *)
Definition cmd_add_task (now : timestamp) (uid : Z) (ttl : string)
    (desc : option string) (status_name : option string) : M Store Z :=
  ensure_user_exists uid ;;;
  let status_name := match status_name with
                     | None => "new"%string
                     | Some n => n
                     end in
  sid <- status_id_by_name status_name ;;
  Sql.insert_task now (ttl, desc, sid, uid).

Definition cmd_update_status (sch : Schema) (now : timestamp)
    (tid : Z) (status_name : string) : M Store unit :=
  ensure_task_exists tid ;;;
  sid <- status_id_by_name status_name ;;
  Sql.update_task_status sch now sid tid.

(** The WHERE clause of cmd_users_without_tasks:
    NOT EXISTS (SELECT 1 FROM tasks t WHERE t.user_id = u.id). *)
Definition has_no_task (st : Store) (u : UserRow) : Prop :=
  filter (fun t => task_user_id t = user_id u) (tasks st) = [].
Global Instance has_no_task_dec st u : Decision (has_no_task st u).
Proof. unfold has_no_task. apply _. Defined.

(** SELECT u.id, u.fullname, u.email, u.created_at FROM users u
    WHERE NOT EXISTS (...) ORDER BY u.fullname: the four columns are the
    whole users row; text is ordered byte-wise (the BINARY collation). *)
Definition select_users_without_tasks (st : Store) : list UserRow :=
  merge_sort (fun a b => Sql.String_le (fullname a) (fullname b))
    (filter (has_no_task st) (users st)).

(** The value returned is [rows], which the command prints and may
    export. *)
Definition cmd_users_without_tasks : M Store (list UserRow) :=
  fun st => (Ok (select_users_without_tasks st), st).

(** A Python str as len() and the format width see it: its sequence of
    code points. *)
Definition Text : Type := list N.




(** How sqlite3.Row matches a column name: the two are equal, or both
    are ASCII and equal up to the case of the letters A-Z. *)
Definition lower_code (c : N) : N :=
  if decide (65 <= c <= 90)%N then (c + 32)%N else c.

Definition is_ascii (s : Text) : Prop := Forall (fun c => (c < 128)%N) s.

Definition same_name (k h : Text) : Prop :=
  k = h ∨ (is_ascii k ∧ is_ascii h ∧ lower_code <$> k = lower_code <$> h).
Global Instance same_name_dec k h : Decision (same_name k h).
Proof. unfold same_name, is_ascii. apply _. Defined.







(** What the export needs of the file system: whether open(path, "w") and
    the writes that follow go through. *)
Definition Files : Type := string -> bool.

(** write_csv(rows, path) as the exit status sees it: it returns, or an
    OSError leaves it. What it writes is not modelled. *)
Definition write_csv {R} (fs : Files) (rows : list R) (path : string)
    : M Store unit :=
  if fs path then ret tt else raise OSError.

(** if csv_path: write_csv(rows, csv_path) -- an empty path counts as
    none. *)
Definition export {R} (fs : Files) (rows : list R) (csv_path : option string)
    : M Store unit :=
  match csv_path with
  | Some path => if decide (path = ""%string) then ret tt
                 else write_csv fs rows path
  | None => ret tt
  end.

(** The parsed command line: the sub-command with its options. *)
Inductive Command : Type :=
| ListInprogress (limit : option Z) (csv_path : option string)
| AddTask (uid : Z) (title : string) (desc : option string)
    (status_name : option string)
| UpdateStatus (task_id : Z) (status_name : string)
| UsersWithoutTasks (csv_path : option string).

(** main(argv) after parse_args, as the process sees it: the database
    file before and after ([None] when the path does not exist, else the
    three tables it holds) and the exit status: main's return value 0 or
    2, or 1 when a SystemExit with a message or another exception leaves
    it. The with block rolls back what an exception leaves uncommitted.
    The two listing commands go on, after the rows are fetched, to print
    them and to export them; what is printed is left out (standard output
    is taken to accept it). *)
Definition main (sch : Schema) (now : timestamp) (fs : Files)
    (db : option Store) (cmd : Command) : Z * option Store :=
  match db with
  | None => (2, None)
  | Some st =>
      let run :=
        match cmd with
        | ListInprogress limit csv_path =>
            (rows <- cmd_list_inprogress limit ;; export fs rows csv_path) st
        | AddTask uid ttl desc name => (cmd_add_task now uid ttl desc name ;;; ret tt) st
        | UpdateStatus tid name => cmd_update_status sch now tid name st
        | UsersWithoutTasks csv_path =>
            (rows <- cmd_users_without_tasks ;; export fs rows csv_path) st
        end in
      match run with
      | (Ok _, st') => (0, Some st')
      | (Raise _, _) => (1, Some st)
      end
  end.

End Manage.

(** ** The Python runtime seed.py runs on *)

(** What seed.py takes from outside the repository: the module-level
    generator of [random] (a hidden state [Rng]), the Faker object (a state
    [Fk], separate from [random]'s), float multiplication, str.lower and
    the iteration order of a set. Floats are embedded as the rationals they
    denote; [fl] rounds an exact result to the nearest float. *)
Class Runtime : Type := {
  Rng : Type;
  Fk : Type;
  random_seed : Z -> Rng;                         (* random.seed(a) *)
  random_random : Rng -> Q * Rng;                 (* random.random() *)
  random_uniform : Q -> Q -> Rng -> Q * Rng;      (* random.uniform(a, b) *)
  random_sample : list Z -> nat -> Rng -> list Z * Rng;
                                     (* random.sample(population, k) *)
  random_randbelow : nat -> Rng -> nat * Rng;     (* Random._randbelow(n) *)
  Faker_seed : Z -> Fk;                           (* Faker(); Faker.seed(a) *)
  fake_name : Fk -> string * Fk;
  fake_unique_email : Fk -> string * Fk;
  fake_sentence : nat -> Fk -> string * Fk;
  fake_paragraph : nat -> Fk -> string * Fk;
  fl : Q -> Q;
  str_lower : string -> string;
  str_rstrip : string -> string -> string;
  set_iter : gset Z -> list Z
}.

(** The documented behaviour of those operations, as far as the proofs
    below use it: rounding to a float is monotone and exact on the
    integers a float holds exactly; random() lies in [0, 1) and
    uniform(a, b) in [a, b]; sample(population, k) returns k elements of
    the population, none more often than it occurs there; _randbelow(n)
    lies below n; a set is iterated element by element; a Faker paragraph
    is not empty. *)
Class RuntimeLaws (RT : Runtime) : Prop := {
  fl_mono : forall x y : Q, (x <= y)%Q -> (fl x <= fl y)%Q;
  fl_int : forall z : Z, 0 <= z <= 2 ^ 53 -> (fl (inject_Z z) == inject_Z z)%Q;
  random_range : forall r, (0 <= (random_random r).1 < 1)%Q;
  uniform_range : forall a b r,
    (a <= b)%Q -> (a <= (random_uniform a b r).1 <= b)%Q;
  sample_spec : forall pop k r,
    (k <= length pop)%nat ->
    length (random_sample pop k r).1 = k ∧ (random_sample pop k r).1 ⊆+ pop;
  randbelow_lt : forall n r, (0 < n)%nat -> ((random_randbelow n r).1 < n)%nat;
  set_iter_perm : forall s, set_iter s ≡ₚ elements s;
  paragraph_nonempty : forall n f, (fake_paragraph n f).1 ≠ ""%string
}.

(** int(x): truncation toward zero. *)
Definition py_int (x : Q) : Z := Z.quot (Qnum x) (Z.pos (Qden x)).

(** round(x): to the nearest integer, a tie going to the even one. *)
Definition py_round (x : Q) : Z :=
  match (x - inject_Z (Qfloor x) ?= 1 # 2)%Q with
  | Lt => Qfloor x
  | Gt => Qfloor x + 1
  | Eq => if Z.even (Qfloor x) then Qfloor x else Qfloor x + 1
  end.

(** The sample size as the specification words it: round(N_u * f), with a
    floor of one user. Compared below with [Seed.sample_size], which is
    what seed_tasks computes. *)
Definition spec_sample_size (n_users : nat) (f : Q) : Z :=
  Z.max 1 (py_round (inject_Z (Z.of_nat n_users) * f)).

(** ** seed.py *)

Module Seed.

Definition DEFAULT_STATUSES : list string :=
  ["new"; "in progress"; "completed"]%string.

Definition seed_status : M Store unit :=
  Sql.executemany (fun _ => Sql.insert_or_ignore_status)
    (fun _ => 0) DEFAULT_STATUSES.

(** get_ids(conn, table): SELECT id FROM {table} *)
Definition get_ids (table : string) : M Store (list Z) :=
  fun st =>
    if decide (table = "users"%string) then (Ok (user_id <$> users st), st)
    else if decide (table = "status"%string)
         then (Ok (status_id <$> status st), st)
    else if decide (table = "tasks"%string)
         then (Ok (task_id <$> tasks st), st)
    else (Raise (OperationalError table), st).

(** The three states of a generated description, and the thresholds the
    draw is compared with. *)
Inductive DescState : Type := Absent | Empty | Populated.

Definition none_threshold : Q := 0.2.
Definition empty_threshold : Q := 0.3.

Definition desc_state_of_draw (r : Q) : DescState :=
  if Qlt_le_dec r none_threshold then Absent
  else if Qlt_le_dec r empty_threshold then Empty
  else Populated.

(** The state a stored description is in. *)
Definition desc_state (d : option string) : DescState :=
  match d with
  | None => Absent
  | Some s => if decide (s = ""%string) then Empty else Populated
  end.

(** The status_round_robin generator: its state is what is left of the
    current pass over status_ids; [rr_next] is next(rr). The list it
    cycles over is non-empty, with head [s0] and tail [srest]. *)
Definition rr_next (s0 : Z) (srest : list Z) (rr : list Z) : Z * list Z :=
  match rr with
  | sid :: rr' => (sid, rr')
  | [] => (s0, srest)
  end.

(** The fields of a row handed to the INSERT of seed_tasks:
    (title, desc, status_id, user_id). *)
Definition row_desc (row : string * option string * Z * Z) : option string := row.1.1.2.
Definition row_status (row : string * option string * Z * Z) : Z := row.1.2.
Definition row_owner (row : string * option string * Z * Z) : Z := row.2.

(** The same four columns of a stored task. *)
Definition task_row (t : TaskRow) : string * option string * Z * Z :=
  (title t, description t, task_status_id t, task_user_id t).

Section WithRuntime.
Context {RT : Runtime}.

Record World : Type := mkWorld {
  store : Store;
  rng : Rng;
  fake : Fk
}.

Definition on_store {A} (c : M Store A) : M World A :=
  fun w => let '(o, st) := c (store w) in
           (o, {| store := st; rng := rng w; fake := fake w |}).

Definition on_rng {A} (c : Rng -> A * Rng) : M World A :=
  fun w => let '(a, r) := c (rng w) in
           (Ok a, {| store := store w; rng := r; fake := fake w |}).

Definition on_fake {A} (c : Fk -> A * Fk) : M World A :=
  fun w => let '(a, f) := c (fake w) in
           (Ok a, {| store := store w; rng := rng w; fake := f |}).

(** random.sample(population, k) *)
Definition sample (population : list Z) (k : Z) : M World (list Z) :=
  if decide (0 <= k <= Z.of_nat (length population))
  then on_rng (random_sample population (Z.to_nat k))
  else raise ValueError.

(** random.choice(seq) *)
Definition choice (seq : list Z) : M World Z :=
  if decide (seq = []) then raise IndexError
  else
    i <- on_rng (random_randbelow (length seq)) ;;
    match seq !! i with
    | Some x => ret x
    | None => raise IndexError
    end.

Fixpoint gen_users (n : nat) (rows : list (string * string))
    : M World (list (string * string)) :=
  match n with
  | O => ret rows
  | S n' =>
      name <- on_fake fake_name ;;
      mail <- on_fake fake_unique_email ;;
      gen_users n' (rows ++ [(name, str_lower mail)])
  end.

Definition seed_users (clock : nat -> timestamp) (n : Z) : M World unit :=
  rows <- gen_users (Z.to_nat n) [] ;;
  on_store (Sql.executemany Sql.insert_user clock rows).

(** The k of random.sample in seed_tasks, for len(user_ids) = [n_users]
    and the value [f] of random.uniform(0.65, 0.75). *)
Definition sample_size (n_users : nat) (f : Q) : Z :=
  Z.max 1 (py_int (fl (inject_Z (Z.of_nat n_users) * f))).

(** users_with_tasks = set(random.sample(user_ids, k=...)) *)
Definition select_users_with_tasks (user_ids : list Z) : M World (gset Z) :=
  f <- on_rng (random_uniform 0.65 0.75) ;;
  picked <- sample user_ids (sample_size (length user_ids) f) ;;
  ret (list_to_set picked).

(** One iteration of the loop of seed_tasks. *)
Definition gen_row (users_with_tasks : gset Z) (s0 : Z) (srest rr : list Z)
    : M World ((string * option string * Z * Z) * list Z) :=
  user_id <- choice (set_iter users_with_tasks) ;;
  let '(status_id, rr') := rr_next s0 srest rr in
  sentence <- on_fake (fake_sentence 4) ;;
  let title := str_rstrip sentence "." in
  r <- on_rng random_random ;;
  desc <- (if Qlt_le_dec r none_threshold then ret None
           else if Qlt_le_dec r empty_threshold then ret (Some ""%string)
           else p <- on_fake (fake_paragraph 2) ;; ret (Some p)) ;;
  ret ((title, desc, status_id, user_id), rr').

Fixpoint gen_rows (n : nat) (users_with_tasks : gset Z) (s0 : Z)
    (srest rr : list Z) (rows : list (string * option string * Z * Z))
    : M World (list (string * option string * Z * Z)) :=
  match n with
  | O => ret rows
  | S n' =>
      step <- gen_row users_with_tasks s0 srest rr ;;
      gen_rows n' users_with_tasks s0 srest step.2 (rows ++ [step.1])
  end.

Definition seed_tasks (clock : nat -> timestamp) (n : Z) : M World unit :=
  user_ids <- on_store (get_ids "users") ;;
  status_ids <- on_store (get_ids "status") ;;
  match user_ids, status_ids with
  | _ :: _, s0 :: srest =>
      users_with_tasks <- select_users_with_tasks user_ids ;;
      rows <- gen_rows (Z.to_nat n) users_with_tasks s0 srest [] [] ;;
      on_store (Sql.executemany Sql.insert_task clock rows)
  | _, _ => raise (RuntimeError "Users/status must be populated before tasks")
  end.

(** with sqlite3.connect(...) as conn: an exception inside the block
    rolls the open transaction back. *)
Definition with_connection {A} (body : M World A) : M World A :=
  fun w =>
    match body w with
    | (Ok a, w') => (Ok a, w')
    | (Raise e, w') =>
        (Raise e, {| store := store w; rng := rng w'; fake := fake w' |})
    end.

(** main() with --users [n_users] and --tasks [n_tasks]. The world it
    starts from holds the store as bootstrap_schema leaves it (the DDL
    script is not among the sources; on a fresh database it leaves three
    empty tables, [empty_store]). The two clocks are those of the
    executemany batches that write timestamps. *)
Definition main (clock_users clock_tasks : nat -> timestamp)
    (n_users n_tasks : Z) : M World unit :=
  modify (fun w => {| store := store w; rng := random_seed 1337;
                      fake := Faker_seed 1337 |}) ;;;
  with_connection
    (on_store seed_status ;;;
     seed_users clock_users n_users ;;;
     seed_tasks clock_tasks n_tasks).

End WithRuntime.

End Seed.

(** ** Notions the properties are stated with *)

(** The order of the result of cmd_list_inprogress, on joined rows and on
    result rows. *)
Definition join_order (a b : TaskRow * StatusRow * UserRow) : Prop :=
  Sql.desc_key (Manage.join_key a) (Manage.join_key b).
Definition row_order (a b : Manage.ListRow) : Prop :=
  Sql.desc_key (Manage.row_key a) (Manage.row_key b).

(** seed_status for any list of names. *)
Definition insert_statuses (names : list string) : M Store unit :=
  Sql.executemany (fun _ => Sql.insert_or_ignore_status) (fun _ => 0) names.

(** The draw that decides the description of the row generated from world
    [w] for the users [uwt]: the value random.random() returns after
    random.choice has consumed its own draw. *)
Definition desc_draw {RT : Runtime} (uwt : gset Z) (w : Seed.World) : Q :=
  (random_random
     (random_randbelow (length (set_iter uwt)) (Seed.rng w)).2).1.

(** A row without the columns the clock fills in. *)
Definition untimed_user (u : UserRow) : Z * string * string :=
  (user_id u, fullname u, email u).
Definition untimed_task (t : TaskRow) : Z * string * option string * Z * Z :=
  (task_id t, title t, description t, task_status_id t, task_user_id t).
Definition untimed (st : Store)
    : list StatusRow * list (Z * string * string)
      * list (Z * string * option string * Z * Z) :=
  (status st, untimed_user <$> users st, untimed_task <$> tasks st).

(** What seeding decides for a task besides its texts: status, owner and
    the state of the description. *)
Definition task_pattern (t : TaskRow) : Z * Z * Seed.DescState :=
  (task_status_id t, task_user_id t, Seed.desc_state (description t)).

(** Two worlds that differ at most in timestamps. *)
Definition same_untimed {RT : Runtime} (w1 w2 : Seed.World) : Prop :=
  untimed (Seed.store w1) = untimed (Seed.store w2)
  ∧ Seed.rng w1 = Seed.rng w2 ∧ Seed.fake w1 = Seed.fake w2.

(** Two computations that, from worlds differing at most in timestamps,
    end alike: same outcome, worlds again differing at most in
    timestamps. *)
Definition agree {RT : Runtime} {A} (c1 c2 : M Seed.World A) : Prop :=
  forall w1 w2, same_untimed w1 w2 ->
    (c1 w1).1 = (c2 w2).1 ∧ same_untimed (c1 w1).2 (c2 w2).2.

Definition agree_store {A} (c1 c2 : M Store A) : Prop :=
  forall st1 st2, untimed st1 = untimed st2 ->
    (c1 st1).1 = (c2 st2).1 ∧ untimed (c1 st1).2 = untimed (c2 st2).2.

(** The order of the result of cmd_users_without_tasks. *)
Definition fullname_order (a b : UserRow) : Prop :=
  Sql.String_le (fullname a) (fullname b).

(** What the schema promises of a store: keys, status names and emails
    are unique, and every task refers to a status row and to a user
    row. *)
Definition consistent (st : Store) : Prop :=
  NoDup (status_id <$> status st)
  ∧ NoDup (status_name <$> status st)
  ∧ NoDup (user_id <$> users st)
  ∧ NoDup (email <$> users st)
  ∧ NoDup (task_id <$> tasks st)
  ∧ (forall t, t ∈ tasks st ->
       task_status_id t ∈ status_id <$> status st
       ∧ task_user_id t ∈ user_id <$> users st).

(** A computation that keeps a property of the state, whether it returns
    or raises. *)
Definition preserves {S A} (P : S -> Prop) (c : M S A) : Prop :=
  forall s, P s -> P (c s).2.

Definition world_consistent {RT : Runtime} (w : Seed.World) : Prop :=
  consistent (Seed.store w).

(** The rows the loop of seed_users builds from the Faker state [f], and
    the state it leaves. *)
Fixpoint faker_rows {RT : Runtime} (n : nat) (f : Fk)
    : list (string * string) * Fk :=
  match n with
  | O => ([], f)
  | S n' =>
      let step := faker_rows n'
                    (fake_unique_email (fake_name f).2).2 in
      (((fake_name f).1, str_lower (fake_unique_email (fake_name f).2).1)
         :: step.1, step.2)
  end.

(** ** A reference runtime

    A runtime that can be run: [random] reads its draws from a tape of
    numbers (a draw outside [0, 1) reads as 0, as does an exhausted tape),
    Faker counts. It is used to evaluate the scripts on concrete inputs. *)

Module Tape.

Definition clamp (u : Q) : Q :=
  if Qle_bool 0 u && negb (Qle_bool 1 u) then u else 0%Q.

Definition draw (r : list Q) : Q * list Q :=
  match r with
  | [] => (0%Q, [])
  | u :: r' => (clamp u, r')
  end.

Definition uniform (a b : Q) (r : list Q) : Q * list Q :=
  ((a + (b - a) * (draw r).1)%Q, (draw r).2).

Definition randbelow (n : nat) (r : list Q) : nat * list Q :=
  (Z.to_nat (Qfloor ((draw r).1 * inject_Z (Z.of_nat n))), (draw r).2).

Definition unique_email (f : nat) : string * nat :=
  (String (Ascii.ascii_of_nat (65 + f)) "@Example.org", S f).

(** str.lower() on ASCII text. *)
Definition ascii_lower (c : Ascii.ascii) : Ascii.ascii :=
  let n := Ascii.nat_of_ascii c in
  if (65 <=? n)%nat && (n <=? 90)%nat then Ascii.ascii_of_nat (n + 32) else c.

Fixpoint lower (s : string) : string :=
  match s with
  | EmptyString => EmptyString
  | String c s' => String (ascii_lower c) (lower s')
  end.

(** str.rstrip(chars): drop the trailing characters that occur in
    [chars]. *)
Fixpoint rstrip (s chars : string) : string :=
  match s with
  | EmptyString => EmptyString
  | String c s' =>
      match rstrip s' chars with
      | EmptyString =>
          if bool_decide (c ∈ String.list_ascii_of_string chars) then EmptyString
          else String c EmptyString
      | rest => String c rest
      end
  end.

Definition runtime : Runtime :=
  {| Rng := list Q;
     Fk := nat;
     random_seed := fun _ => [(11 # 16)%Q; (1 # 4)%Q; (1 # 10)%Q;
                              (3 # 4)%Q; (1 # 4)%Q; (1 # 2)%Q;
                              (9 # 10)%Q; (1 # 8)%Q; (1 # 2)%Q;
                              (7 # 8)%Q; (3 # 20)%Q];
     random_random := draw;
     random_uniform := uniform;
     random_sample := fun pop k r => (take k pop, r);
     random_randbelow := randbelow;
     Faker_seed := fun _ => 0%nat;
     fake_name := fun f => ("Ada Lovelace"%string, f);
     fake_unique_email := unique_email;
     fake_sentence := fun _ f => ("Write the report."%string, f);
     fake_paragraph := fun _ f => ("Some text. More text."%string, f);
     fl := fun x => x;
     str_lower := lower;
     str_rstrip := rstrip;
     set_iter := elements |}.

End Tape.

(** ** Sample data *)

Definition sample_store : Store :=
  {| status := [mkStatus 1 "new"; mkStatus 2 "in progress"; mkStatus 3 "completed"];
     users := [mkUser 1 "Ada Lovelace" "ada@example.org" 10;
               mkUser 2 "Alan Turing" "alan@example.org" 10];
     tasks := [mkTask 1 "Write the report" None 1 1 10 10;
               mkTask 2 "Review the draft" (Some ""%string) 2 1 10 12;
               mkTask 3 "Send the invoice" (Some "By Friday"%string) 2 2 11 12] |}.


Definition twelve_users : list Z := [1; 2; 3; 4; 5; 6; 7; 8; 9; 10; 11; 12].

Definition tape_world (st : Store) (tape : list Q) : @Seed.World Tape.runtime :=
  @Seed.mkWorld Tape.runtime st tape 0%nat.

(** * Properties *)

(** ** Generic facts about the monad and the tables *)

Lemma bind_ok {S A B} (c : M S A) (k : A -> M S B) s a s' :
  c s = (Ok a, s') -> bind c k s = k a s'.
Proof. intros H. unfold bind. by rewrite H. Qed.

Lemma bind_raise {S A B} (c : M S A) (k : A -> M S B) s e s' :
  c s = (Raise e, s') -> bind c k s = (Raise e, s').
Proof. intros H. unfold bind. by rewrite H. Qed.

Lemma filter_eq_nil {A} (P : A -> Prop) `{!forall x, Decision (P x)} (l : list A) :
  filter P l = [] <-> forall x, x ∈ l -> ¬ P x.
Proof.
  split.
  - intros Hnil x Hx HP. by eapply filter_nil_not_elem_of.
  - intros Hall. induction l as [|a l IH]; [done|].
    rewrite filter_cons. destruct (decide (P a)) as [HP|HP].
    + exfalso. apply (Hall a); [left|done].
    + apply IH. intros x Hx. apply Hall. by right.
Qed.

(** ** manage_alt.py: status_id_by_name *)

Lemma status_id_by_name_absent (name : string) (st : Store) :
  name ∉ status_name <$> status st ->
  Manage.status_id_by_name name st
  = (Raise (StatusNotFound name (Sql.select_status_names_ordered st)), st).
Proof.
  intros Habs. unfold Manage.status_id_by_name, Sql.select_status_ids_by_name.
  assert (filter (fun s => status_name s = name) (status st) = []) as ->; [|done].
  apply filter_eq_nil. intros s Hs Heq. apply Habs.
  apply list_elem_of_fmap. by exists s.
Qed.

Lemma status_id_by_name_present (name : string) (st : Store) :
  name ∈ status_name <$> status st ->
  exists s, s ∈ status st ∧ status_name s = name
            ∧ Manage.status_id_by_name name st = (Ok (status_id s), st).
Proof.
  intros Hin. unfold Manage.status_id_by_name, Sql.select_status_ids_by_name.
  destruct (filter (fun s => status_name s = name) (status st)) as [|s l] eqn:Hf.
  - exfalso. apply list_elem_of_fmap in Hin as (s & -> & Hs).
    rewrite filter_eq_nil in Hf. by apply (Hf s).
  - assert (s ∈ filter (fun s => status_name s = name) (status st)) as Hs
      by (rewrite Hf; left).
    apply list_elem_of_filter in Hs as [Hn Hs]. by exists s.
Qed.


Global Instance String_le_total : Total Sql.String_le.
Proof. intros a b. apply String.leb_total. Qed.


(** ** manage_alt.py: cmd_add_task *)

Lemma ensure_user_exists_absent (uid : Z) (st : Store) :
  uid ∉ user_id <$> users st ->
  Manage.ensure_user_exists uid st
  = (Raise (if decide (int64 uid) then UserNotFound uid else OverflowError), st).
Proof.
  intros Habs. unfold Manage.ensure_user_exists, Sql.select_users_by_id.
  assert (filter (fun u => user_id u = uid) (users st) = []) as ->;
    [|by destruct (decide _)].
  apply filter_eq_nil. intros u Hu Heq. apply Habs.
  apply list_elem_of_fmap. by exists u.
Qed.

(** On a store whose user ids are 64-bit integers, as every SQLite table's
    are, [ensure_user_exists] is the source's sequence: the id is bound,
    which an id outside the range does not survive, then the row is
    looked up. *)
Lemma ensure_user_exists_binds_first (uid : Z) (st : Store) :
  Forall int64 (user_id <$> users st) ->
  Manage.ensure_user_exists uid st
  = if decide (int64 uid)
    then match Sql.select_users_by_id uid st with
         | [] => (Raise (UserNotFound uid), st)
         | _ :: _ => (Ok tt, st)
         end
    else (Raise OverflowError, st).
Proof.
  intros Hall. unfold Manage.ensure_user_exists.
  destruct (decide (int64 uid)) as [Hin|Hout]; [done|].
  destruct (Sql.select_users_by_id uid st) as [|u l] eqn:Hsel; [done|].
  exfalso. apply Hout.
  assert (u ∈ Sql.select_users_by_id uid st) as Hu by (rewrite Hsel; left).
  apply list_elem_of_filter in Hu as [<- Hu].
  rewrite Forall_forall in Hall. apply Hall, list_elem_of_fmap. by exists u.
Qed.

Lemma ensure_task_exists_binds_first (tid : Z) (st : Store) :
  Forall int64 (task_id <$> tasks st) ->
  Manage.ensure_task_exists tid st
  = if decide (int64 tid)
    then match Sql.select_tasks_by_id tid st with
         | [] => (Raise (TaskNotFound tid), st)
         | _ :: _ => (Ok tt, st)
         end
    else (Raise OverflowError, st).
Proof.
  intros Hall. unfold Manage.ensure_task_exists.
  destruct (decide (int64 tid)) as [Hin|Hout]; [done|].
  destruct (Sql.select_tasks_by_id tid st) as [|t l] eqn:Hsel; [done|].
  exfalso. apply Hout.
  assert (t ∈ Sql.select_tasks_by_id tid st) as Ht by (rewrite Hsel; left).
  apply list_elem_of_filter in Ht as [<- Ht].
  rewrite Forall_forall in Hall. apply Hall, list_elem_of_fmap. by exists t.
Qed.

(** C6: adding a task for a user id that no row of users has fails,
    whatever the other arguments, and leaves the whole store, so also the
    tasks table and its row count, as it was. The failure is the
    user-not-found exit when the id is a 64-bit integer; an id outside
    that range is refused with OverflowError when it is bound to the
    query. *)
Theorem cmd_add_task_unknown_user (now : timestamp) (uid : Z) (ttl : string)
    (desc : option string) (status_name : option string) (st : Store) :
  uid ∉ user_id <$> users st ->
  (int64 uid ->
   Manage.cmd_add_task now uid ttl desc status_name st = (Raise (UserNotFound uid), st))
  ∧ (¬ int64 uid ->
     Manage.cmd_add_task now uid ttl desc status_name st = (Raise OverflowError, st))
  ∧ (exists e, (Manage.cmd_add_task now uid ttl desc status_name st).1 = Raise e)
  ∧ (Manage.cmd_add_task now uid ttl desc status_name st).2 = st
  ∧ tasks (Manage.cmd_add_task now uid ttl desc status_name st).2 = tasks st
  ∧ length (tasks (Manage.cmd_add_task now uid ttl desc status_name st).2)
    = length (tasks st).
Proof.
  intros Habs.
  assert (Manage.cmd_add_task now uid ttl desc status_name st
          = (Raise (if decide (int64 uid) then UserNotFound uid else OverflowError), st))
    as ->.
  { unfold Manage.cmd_add_task. apply bind_raise.
    by apply ensure_user_exists_absent. }
  split_and!; try done.
  - intros Hin. by rewrite decide_True.
  - intros Hout. by rewrite decide_False.
  - by eexists.
Qed.

(** ** manage_alt.py: cmd_update_status *)

(** With a primary key, a WHERE id = ? update is an update in place. *)
Lemma update_by_key_insert (f : TaskRow -> TaskRow) (l : list TaskRow)
    (i : nat) (t : TaskRow) :
  NoDup (task_id <$> l) -> l !! i = Some t ->
  (fun t' => if decide (task_id t' = task_id t) then f t' else t') <$> l
  = <[i := f t]> l.
Proof.
  intros Hnd Hi. apply list_eq. intros j.
  rewrite list_lookup_fmap. destruct (decide (i = j)) as [<-|Hne].
  - rewrite list_lookup_insert_eq by (by eapply lookup_lt_Some).
    rewrite Hi. simpl. by rewrite decide_True.
  - rewrite list_lookup_insert_ne by done.
    destruct (l !! j) as [t'|] eqn:Hj; [|done]. simpl.
    rewrite decide_False; [done|]. intros Heq. apply Hne.
    eapply NoDup_lookup; [exact Hnd| |];
      rewrite list_lookup_fmap; [by rewrite Hi | rewrite Hj; simpl; by rewrite Heq].
Qed.

Lemma cmd_update_status_ok (sch : Schema) (now : timestamp) (name : string)
    (st : Store) (i : nat) (t : TaskRow) :
  NoDup (task_id <$> tasks st) ->
  tasks st !! i = Some t ->
  name ∈ status_name <$> status st ->
  exists s,
    s ∈ status st ∧ status_name s = name
    ∧ Manage.cmd_update_status sch now (task_id t) name st
      = (Ok tt, {| status := status st; users := users st;
                   tasks := <[i := Sql.update_row sch now (status_id s) t]> (tasks st) |}).
Proof.
  intros Hnd Hi Hname.
  destruct (status_id_by_name_present name st Hname) as (s & Hs & Hn & Hr).
  exists s. split; [done|]. split; [done|].
  unfold Manage.cmd_update_status.
  assert (t ∈ Sql.select_tasks_by_id (task_id t) st) as Hsel.
  { apply list_elem_of_filter. split; [done|]. by eapply list_elem_of_lookup_2. }
  erewrite bind_ok; cycle 1.
  { unfold Manage.ensure_task_exists.
    destruct (Sql.select_tasks_by_id (task_id t) st); [by inversion Hsel|done]. }
  erewrite bind_ok by exact Hr.
  unfold Sql.update_task_status. rewrite decide_True; cycle 1.
  { right. apply list_elem_of_fmap. by exists s. }
  by rewrite (update_by_key_insert _ _ i t).
Qed.

(** C1 (amended): on a tasks table with unique ids, updating the status of
    an existing task to a defined status name succeeds, sets that task's
    status_id to the id of the named status, replaces only that row (the
    other rows and the other tables stay), and keeps the row's id, title,
    description, owner and created_at. The statement does not write
    updated_at: it becomes the current time when the schema maintains it
    and stays otherwise. Over two successive calls on the same task, with
    a clock that does not run backwards, updated_at never decreases, and
    it strictly increases when the schema maintains it and the clock
    reading has strictly increased between the calls. *)
Theorem cmd_update_status_spec (sch : Schema) (now now2 : timestamp)
    (name name2 : string) (st : Store) (i : nat) (t : TaskRow) :
  NoDup (task_id <$> tasks st) ->
  tasks st !! i = Some t ->
  name ∈ status_name <$> status st ->
  name2 ∈ status_name <$> status st ->
  updated_at t <= now <= now2 ->
  exists s s2 t1 t2 st1 st2,
    s ∈ status st ∧ status_name s = name
    ∧ s2 ∈ status st ∧ status_name s2 = name2
    ∧ Manage.cmd_update_status sch now (task_id t) name st = (Ok tt, st1)
    ∧ Manage.cmd_update_status sch now2 (task_id t) name2 st1 = (Ok tt, st2)
    ∧ status st1 = status st ∧ users st1 = users st
    ∧ tasks st1 = <[i := t1]> (tasks st)
    ∧ status st2 = status st ∧ users st2 = users st
    ∧ tasks st2 = <[i := t2]> (tasks st)
    ∧ task_status_id t1 = status_id s ∧ task_status_id t2 = status_id s2
    ∧ created_at t1 = created_at t ∧ created_at t2 = created_at t
    ∧ (task_id t1, title t1, description t1, task_user_id t1)
      = (task_id t, title t, description t, task_user_id t)
    ∧ (task_id t2, title t2, description t2, task_user_id t2)
      = (task_id t, title t, description t, task_user_id t)
    ∧ updated_at t1 = (if touch_updated_at sch then now else updated_at t)
    ∧ updated_at t2 = (if touch_updated_at sch then now2 else updated_at t)
    ∧ updated_at t <= updated_at t1 <= updated_at t2
    ∧ (touch_updated_at sch = true -> now < now2 -> updated_at t1 < updated_at t2).
Proof.
  intros Hnd Hi Hname Hname2 Hclock.
  destruct (cmd_update_status_ok sch now name st i t Hnd Hi Hname)
    as (s & Hs & Hn & Hr1).
  set (t1 := Sql.update_row sch now (status_id s) t) in *.
  set (st1 := {| status := status st; users := users st;
                 tasks := <[i := t1]> (tasks st) |}) in *.
  assert (i < length (tasks st))%nat as Hlt by (by eapply lookup_lt_Some).
  assert (tasks st1 !! i = Some t1) as Hi1
    by (by apply list_lookup_insert_eq).
  assert (NoDup (task_id <$> tasks st1)) as Hnd1.
  { simpl. rewrite list_fmap_insert. replace (task_id t1) with (task_id t) by done.
    rewrite list_insert_id; [done|]. by rewrite list_lookup_fmap, Hi. }
  destruct (cmd_update_status_ok sch now2 name2 st1 i t1 Hnd1 Hi1 Hname2)
    as (s2 & Hs2 & Hn2 & Hr2).
  eexists s, s2, t1, (Sql.update_row sch now2 (status_id s2) t1), st1, _.
  split_and!; try done; try exact Hr2; try done.
  - simpl. by rewrite list_insert_insert_eq.
  - simpl. by destruct (touch_updated_at sch).
  - simpl. destruct (touch_updated_at sch); lia.
  - simpl. destruct (touch_updated_at sch); lia.
  - intros Htouch Hlt2. simpl. rewrite Htouch. lia.
Qed.

(** ** manage_alt.py: cmd_list_inprogress *)

Global Instance join_order_total : Total join_order.
Proof. intros a b. unfold join_order, Sql.desc_key. simpl. lia. Qed.
Global Instance join_order_trans : Transitive join_order.
Proof. intros a b c. unfold join_order, Sql.desc_key. simpl. lia. Qed.


Lemma elem_of_joined (st : Store) (t : TaskRow) (s : StatusRow) (u : UserRow) :
  (t, s, u) ∈ Sql.joined st
  <-> t ∈ tasks st ∧ s ∈ status st ∧ u ∈ users st
      ∧ status_id s = task_status_id t ∧ user_id u = task_user_id t.
Proof.
  unfold Sql.joined. rewrite list_elem_of_bind. split.
  - intros (t' & H1 & Ht). apply list_elem_of_bind in H1 as (s' & H2 & Hs).
    apply list_elem_of_bind in H2 as (u' & H3 & Hu).
    apply list_elem_of_singleton in H3. injection H3 as -> -> ->.
    apply list_elem_of_filter in Hs as [? ?], Hu as [? ?]. done.
  - intros (Ht & Hs & Hu & Hsid & Huid). exists t. split; [|done].
    apply list_elem_of_bind. exists s. split; [|by apply list_elem_of_filter].
    apply list_elem_of_bind. exists u. split; [|by apply list_elem_of_filter].
    by apply list_elem_of_singleton.
Qed.

Lemma select_inprogress_perm (st : Store) :
  Manage.select_inprogress st
  ≡ₚ Manage.project <$>
       filter (fun j => status_name j.1.2 = "in progress"%string) (Sql.joined st).
Proof. unfold Manage.select_inprogress. by rewrite merge_sort_Permutation. Qed.

Lemma select_inprogress_sorted (st : Store) :
  StronglySorted row_order (Manage.select_inprogress st).
Proof.
  unfold Manage.select_inprogress.
  apply (StronglySorted_fmap _ join_order).
  - by intros [[t s] u] [[t' s'] u'].
  - apply (StronglySorted_merge_sort join_order).
Qed.

Lemma elem_of_select_inprogress (st : Store) (r : Manage.ListRow) :
  r ∈ Manage.select_inprogress st
  <-> exists t s u,
        t ∈ tasks st ∧ s ∈ status st ∧ u ∈ users st
        ∧ status_id s = task_status_id t ∧ user_id u = task_user_id t
        ∧ status_name s = "in progress"%string
        ∧ r = Manage.project (t, s, u).
Proof.
  rewrite select_inprogress_perm, list_elem_of_fmap. split.
  - intros ([[t s] u] & -> & Hj). apply list_elem_of_filter in Hj as [Hn Hj].
    apply elem_of_joined in Hj as (? & ? & ? & ? & ?). by exists t, s, u.
  - intros (t & s & u & Ht & Hs & Hu & Hsid & Huid & Hn & ->).
    exists (t, s, u). split; [done|]. apply list_elem_of_filter.
    split; [done|]. by apply elem_of_joined.
Qed.



(** ** seed.py: seed_status *)

Lemma insert_or_ignore_present (name : string) (st : Store) :
  name ∈ status_name <$> status st ->
  Sql.insert_or_ignore_status name st = (Ok tt, st).
Proof. intros Hin. unfold Sql.insert_or_ignore_status. by rewrite decide_True. Qed.

Lemma executemany_clock_irrelevant {St R A} (stmt : R -> M St A)
    (c1 c2 : nat -> timestamp) (rows : list R) :
  Sql.executemany (fun _ => stmt) c1 rows = Sql.executemany (fun _ => stmt) c2 rows.
Proof.
  revert c1 c2. induction rows as [|r rows IH]; intros c1 c2; [done|].
  simpl. by rewrite (IH (fun i => c1 (S i)) (fun i => c2 (S i))).
Qed.

Lemma insert_statuses_noop (names : list string) (st : Store) :
  (forall n, n ∈ names -> n ∈ status_name <$> status st) ->
  insert_statuses names st = (Ok tt, st).
Proof.
  unfold insert_statuses. induction names as [|n names IH]; intros Hall; [done|].
  simpl. erewrite bind_ok by (apply insert_or_ignore_present, Hall; left).
  erewrite executemany_clock_irrelevant. apply IH.
  intros m Hm. apply Hall. by right.
Qed.

Lemma insert_statuses_run (names : list string) (st : Store) :
  exists st',
    insert_statuses names st = (Ok tt, st')
    ∧ users st' = users st ∧ tasks st' = tasks st
    ∧ (exists added, status st' = status st ++ added)
    ∧ (forall n, n ∈ names -> n ∈ status_name <$> status st')
    ∧ (NoDup (status_name <$> status st) -> NoDup (status_name <$> status st')).
Proof.
  unfold insert_statuses. revert st.
  induction names as [|n names IH]; intros st.
  - exists st. split_and!; try done.
    + exists []. by rewrite app_nil_r.
    + intros n Hn. inversion Hn.
  - simpl. unfold bind at 1. unfold Sql.insert_or_ignore_status at 1.
    destruct (decide (n ∈ status_name <$> status st)) as [Hin|Hout].
    + erewrite executemany_clock_irrelevant.
      destruct (IH st) as (st' & Hrun & Hu & Ht & [added Hadd] & Hall & Hnd).
      exists st'. split_and!; try done; [by exists added|].
      intros m Hm. apply elem_of_cons in Hm as [->|Hm]; [|by apply Hall].
      rewrite Hadd, fmap_app. apply elem_of_app. by left.
    + erewrite executemany_clock_irrelevant.
      match goal with |- context [Sql.executemany _ _ names ?s] =>
        destruct (IH s) as (st' & Hrun & Hu & Ht & [added Hadd] & Hall & Hnd) end.
      simpl in *. exists st'. split_and!; try done.
      * eexists. rewrite Hadd, <- app_assoc. done.
      * intros m Hm. apply elem_of_cons in Hm as [->|Hm]; [|by apply Hall].
        rewrite Hadd, !fmap_app. apply elem_of_app. left.
        apply elem_of_app. right. simpl. left.
      * intros Hnd0. apply Hnd. rewrite fmap_app. apply NoDup_app.
        split; [done|]. split; [|apply NoDup_singleton].
        intros m Hm Hm'. apply list_elem_of_singleton in Hm'. by subst.
Qed.

(** C9: seeding the status vocabulary never fails; inserting a name the
    table already holds returns without changing the store; and running
    the seeding step a second time changes nothing, so the status table
    after two runs equals the table after one. The run only appends rows
    to the status table, ends with every default name in it, and keeps the
    names free of duplicates. *)
Theorem seed_status_idempotent (st : Store) :
  (forall name, name ∈ status_name <$> status st ->
     Sql.insert_or_ignore_status name st = (Ok tt, st))
  ∧ exists st1,
      Seed.seed_status st = (Ok tt, st1)
      ∧ Seed.seed_status st1 = (Ok tt, st1)
      ∧ users st1 = users st ∧ tasks st1 = tasks st
      ∧ (exists added, status st1 = status st ++ added)
      ∧ (forall n, n ∈ Seed.DEFAULT_STATUSES -> n ∈ status_name <$> status st1)
      ∧ (NoDup (status_name <$> status st) -> NoDup (status_name <$> status st1)).
Proof.
  split; [intros name; apply insert_or_ignore_present|].
  destruct (insert_statuses_run Seed.DEFAULT_STATUSES st)
    as (st1 & Hrun & Hu & Ht & Hadd & Hall & Hnd).
  exists st1. split_and!; try done.
  by apply (insert_statuses_noop Seed.DEFAULT_STATUSES).
Qed.

(** ** seed.py: seed_tasks on an empty referent table *)

(** C10: when the users table or the status table is empty, seed_tasks
    raises its RuntimeError for every requested task count, before any
    draw from either generator and before any write: the store and both
    generator states are what they were, so no task row was inserted. *)
Theorem seed_tasks_needs_referents {RT : Runtime} (clock : nat -> timestamp)
    (n : Z) (w : Seed.World) :
  users (Seed.store w) = [] ∨ status (Seed.store w) = [] ->
  Seed.seed_tasks clock n w
  = (Raise (RuntimeError "Users/status must be populated before tasks"), w)
  ∧ tasks (Seed.store (Seed.seed_tasks clock n w).2) = tasks (Seed.store w).
Proof.
  intros Hempty.
  assert (Seed.seed_tasks clock n w
          = (Raise (RuntimeError "Users/status must be populated before tasks"), w))
    as ->; [|done].
  destruct w as [st r f]. simpl in Hempty.
  unfold Seed.seed_tasks, bind, Seed.on_store, Seed.get_ids, raise. simpl.
  destruct Hempty as [-> | ->]; simpl; [done|].
  by destruct (user_id <$> users st).
Qed.

(** ** seed.py: one generated task row *)

Section GenRow.
Context {RT : Runtime}.

Lemma on_rng_eq {A} (c : Rng -> A * Rng) (w : Seed.World) :
  Seed.on_rng c w
  = (Ok (c (Seed.rng w)).1,
     {| Seed.store := Seed.store w; Seed.rng := (c (Seed.rng w)).2;
        Seed.fake := Seed.fake w |}).
Proof. unfold Seed.on_rng. by destruct (c (Seed.rng w)). Qed.

Lemma on_fake_eq {A} (c : Fk -> A * Fk) (w : Seed.World) :
  Seed.on_fake c w
  = (Ok (c (Seed.fake w)).1,
     {| Seed.store := Seed.store w; Seed.rng := Seed.rng w;
        Seed.fake := (c (Seed.fake w)).2 |}).
Proof. unfold Seed.on_fake. by destruct (c (Seed.fake w)). Qed.

Lemma on_store_eq {A} (c : M Store A) (w : Seed.World) :
  Seed.on_store c w
  = ((c (Seed.store w)).1,
     {| Seed.store := (c (Seed.store w)).2; Seed.rng := Seed.rng w;
        Seed.fake := Seed.fake w |}).
Proof. unfold Seed.on_store. by destruct (c (Seed.store w)). Qed.

Context {RL : RuntimeLaws RT}.

Lemma choice_ok (seq : list Z) (w : Seed.World) :
  seq ≠ [] ->
  exists x,
    seq !! (random_randbelow (length seq) (Seed.rng w)).1 = Some x
    ∧ Seed.choice seq w
      = (Ok x,
         {| Seed.store := Seed.store w;
            Seed.rng := (random_randbelow (length seq) (Seed.rng w)).2;
            Seed.fake := Seed.fake w |}).
Proof.
  intros Hne.
  destruct (lookup_lt_is_Some_2 seq
              (random_randbelow (length seq) (Seed.rng w)).1) as [x Hx].
  { apply randbelow_lt. destruct seq; [done|simpl; lia]. }
  exists x. split; [done|].
  unfold Seed.choice. rewrite decide_False by done.
  erewrite bind_ok by apply on_rng_eq. by rewrite Hx.
Qed.

Lemma gen_row_ok (uwt : gset Z) (s0 : Z) (srest rr : list Z) (w : Seed.World) :
  set_iter uwt ≠ [] ->
  exists row w',
    Seed.gen_row uwt s0 srest rr w = (Ok (row, (Seed.rr_next s0 srest rr).2), w')
    ∧ Seed.store w' = Seed.store w
    ∧ Seed.row_status row = (Seed.rr_next s0 srest rr).1
    ∧ Seed.row_owner row ∈ set_iter uwt
    ∧ Seed.row_desc row
      = (if Qlt_le_dec (desc_draw uwt w) Seed.none_threshold then None
         else if Qlt_le_dec (desc_draw uwt w) Seed.empty_threshold
              then Some ""%string
              else Some (fake_paragraph 2
                           (fake_sentence 4 (Seed.fake w)).2).1).
Proof.
  intros Hne. destruct (choice_ok (set_iter uwt) w Hne) as (x & Hx & Hc).
  unfold Seed.gen_row. erewrite bind_ok by exact Hc.
  destruct (Seed.rr_next s0 srest rr) as [sid rr'] eqn:Hrr. simpl.
  erewrite bind_ok by apply on_fake_eq.
  erewrite bind_ok by apply on_rng_eq. simpl.
  unfold desc_draw.
  set (r := (random_random
               (random_randbelow (length (set_iter uwt)) (Seed.rng w)).2).1).
  destruct (Qlt_le_dec r Seed.none_threshold) as [Hlt|Hge].
  - eexists _, _. split; [reflexivity|]. split_and!; try done.
    by eapply list_elem_of_lookup_2.
  - destruct (Qlt_le_dec r Seed.empty_threshold) as [Hlt2|Hge2].
    + eexists _, _. split; [reflexivity|]. split_and!; try done.
      by eapply list_elem_of_lookup_2.
    + erewrite bind_ok by (erewrite bind_ok by apply on_fake_eq; reflexivity).
      eexists _, _. split; [reflexivity|]. split_and!; try done.
      by eapply list_elem_of_lookup_2.
Qed.

End GenRow.

(** ** The reference runtime obeys the laws *)

Lemma clamp_range (u : Q) : (0 <= Tape.clamp u < 1)%Q.
Proof.
  unfold Tape.clamp. destruct (Qle_bool 0 u) eqn:H0; simpl; [|lra].
  destruct (Qle_bool 1 u) eqn:H1; simpl; [lra|].
  apply Qle_bool_iff in H0. split; [done|].
  apply Qnot_le_lt. intros H. apply Qle_bool_iff in H. congruence.
Qed.

Lemma draw_range (r : list Q) : (0 <= (Tape.draw r).1 < 1)%Q.
Proof. destruct r; simpl; [lra|apply clamp_range]. Qed.

Lemma Qfloor_lt_inject (x : Q) (n : Z) : (x < inject_Z n)%Q -> Qfloor x < n.
Proof.
  intros Hx. rewrite Zlt_Qlt. eapply Qle_lt_trans; [apply Qfloor_le|done].
Qed.

Lemma Qfloor_nonneg (x : Q) : (0 <= x)%Q -> 0 <= Qfloor x.
Proof. intros Hx. rewrite <- (Qfloor_Z 0). by apply Qfloor_resp_le. Qed.

Lemma tape_laws : RuntimeLaws Tape.runtime.
Proof.
  split; cbn [Tape.runtime fl random_random random_uniform random_sample
              random_randbelow set_iter fake_paragraph Rng Fk].
  - done.
  - reflexivity.
  - apply draw_range.
  - intros a b r Hab. unfold Tape.uniform. cbn [fst].
    pose proof (draw_range r) as [H0 H1]. nra.
  - intros pop k r Hk. cbn [fst]. split; [rewrite length_take; lia|].
    apply sublist_submseteq, sublist_take.
  - intros n r Hn. unfold Tape.randbelow. cbn [fst].
    pose proof (draw_range r) as [H0 H1].
    set (u := (Tape.draw r).1) in *.
    assert (0 < inject_Z (Z.of_nat n))%Q as Hpos
      by (change 0%Q with (inject_Z 0); rewrite <- Zlt_Qlt; lia).
    assert (Qfloor (u * inject_Z (Z.of_nat n)) < Z.of_nat n)
      by (apply Qfloor_lt_inject; nra).
    assert (0 <= Qfloor (u * inject_Z (Z.of_nat n)))
      by (apply Qfloor_nonneg; nra).
    lia.
  - done.
  - done.
Qed.

(** ** seed.py: the three states of a description *)

(** C8: the description of a generated task is decided by one draw r of
    random.random(), taken for that task alone, which lies in [0, 1): it
    is NULL exactly when r < 0.2, the empty string exactly when
    0.2 <= r < 0.3, and a non-empty text exactly when 0.3 <= r. The three
    states exclude each other and leave no fourth, and the three intervals
    of r have lengths 0.2, 0.1 and 0.7. *)
Theorem description_three_states {RT : Runtime} {RL : RuntimeLaws RT}
    (uwt : gset Z) (s0 : Z) (srest rr : list Z) (w : Seed.World) :
  set_iter uwt ≠ [] ->
  exists row rr' w',
    Seed.gen_row uwt s0 srest rr w = (Ok (row, rr'), w')
    ∧ (0 <= desc_draw uwt w < 1)%Q
    ∧ Seed.desc_state (Seed.row_desc row)
      = Seed.desc_state_of_draw (desc_draw uwt w)
    ∧ (Seed.row_desc row = None <-> (desc_draw uwt w < 0.2)%Q)
    ∧ (Seed.row_desc row = Some ""%string
       <-> (0.2 <= desc_draw uwt w)%Q ∧ (desc_draw uwt w < 0.3)%Q)
    ∧ ((exists p, Seed.row_desc row = Some p ∧ p ≠ ""%string)
       <-> (0.3 <= desc_draw uwt w)%Q)
    ∧ (Seed.none_threshold - 0 == 0.2)%Q
    ∧ (Seed.empty_threshold - Seed.none_threshold == 0.1)%Q
    ∧ (1 - Seed.empty_threshold == 0.7)%Q.
Proof.
  intros Hne.
  destruct (gen_row_ok uwt s0 srest rr w Hne)
    as (row & w' & Hrun & _ & _ & _ & Hdesc).
  exists row, (Seed.rr_next s0 srest rr).2, w'. split; [exact Hrun|].
  split; [apply random_range|].
  unfold Seed.desc_state_of_draw. rewrite Hdesc.
  pose proof (paragraph_nonempty 2 (fake_sentence 4 (Seed.fake w)).2) as Hp.
  unfold Seed.none_threshold, Seed.empty_threshold in *.
  destruct (Qlt_le_dec (desc_draw uwt w) 0.2) as [H1|H1];
    [|destruct (Qlt_le_dec (desc_draw uwt w) 0.3) as [H2|H2]]; simpl.
  - split_and!; try done; try (split; [done|]).
    + intros [? ?]. lra.
    + split; [intros (p & ? & ?); done|]. intros ?. lra.
  - split_and!; try done.
    + split; [done|]. intros ?. lra.
    + split; [intros (p & [= <-] & ?); done|]. intros ?. lra.
  - rewrite decide_False by done. split_and!; try done.
    + split; [done|]. intros ?. lra.
    + split; [intros [= Heq]; by rewrite Heq in Hp|]. intros [? ?]. lra.
    + split; [done|]. intros _. by eexists.
Qed.

(** ** seed.py: the users that receive tasks *)

Lemma py_int_floor (x : Q) : (0 <= x)%Q -> py_int x = Qfloor x.
Proof.
  destruct x as [n d]. unfold py_int, Qle. simpl. intros Hn.
  apply Z.quot_div_nonneg; lia.
Qed.

Lemma NoDup_submseteq_inv {A} (l k : list A) : l ⊆+ k -> NoDup k -> NoDup l.
Proof.
  intros Hsub Hnd. apply submseteq_Permutation in Hsub as [k' Hk'].
  rewrite Hk' in Hnd. by apply NoDup_app in Hnd as [? _].
Qed.

Section SampleSize.
Context {RT : Runtime} {RL : RuntimeLaws RT}.

Lemma sample_size_bounds (n : nat) (f : Q) :
  (1 <= n)%nat -> Z.of_nat n <= 2 ^ 53 -> (0.65 <= f)%Q -> (f <= 0.75)%Q ->
  Seed.sample_size n f = Z.max 1 (Qfloor (fl (inject_Z (Z.of_nat n) * f)))
  ∧ 1 <= Seed.sample_size n f <= Z.of_nat n
  ∧ Qfloor (inject_Z (Z.of_nat n) * f) <= Seed.sample_size n f
    <= Qfloor (inject_Z (Z.of_nat n) * f) + 1.
Proof.
  intros Hn Hbig Hlo Hhi.
  set (N := Z.of_nat n) in *. set (x := (inject_Z N * f)%Q).
  assert (0 <= inject_Z N)%Q as HN0
    by (change 0%Q with (inject_Z 0); rewrite <- Zle_Qle; lia).
  assert (0 <= x)%Q as Hx0 by (unfold x; nra).
  assert (x <= inject_Z N)%Q as HxN by (unfold x; nra).
  set (m := Qfloor x).
  assert (0 <= m) as Hm0 by (by apply Qfloor_nonneg).
  assert (m < N) as HmN.
  { apply Qfloor_lt_inject. unfold x.
    assert (1 <= inject_Z N)%Q
      by (change 1%Q with (inject_Z 1); rewrite <- Zle_Qle; lia).
    nra. }
  assert (inject_Z m <= fl x)%Q as Hlow.
  { rewrite <- (fl_int m) by lia. apply fl_mono, Qfloor_le. }
  assert (fl x <= inject_Z (m + 1))%Q as Hup.
  { rewrite <- (fl_int (m + 1)) by lia. apply fl_mono, Qlt_le_weak, Qlt_floor. }
  assert (fl x <= inject_Z N)%Q as HupN.
  { rewrite <- (fl_int N) by lia. by apply fl_mono. }
  assert (0 <= fl x)%Q as Hfl0.
  { eapply Qle_trans; [|exact Hlow].
    change 0%Q with (inject_Z 0). rewrite <- Zle_Qle. lia. }
  assert (m <= Qfloor (fl x)) as H1
    by (rewrite <- (Qfloor_Z m); by apply Qfloor_resp_le).
  assert (Qfloor (fl x) <= m + 1) as H2
    by (rewrite <- (Qfloor_Z (m + 1)); by apply Qfloor_resp_le).
  assert (Qfloor (fl x) <= N) as H3
    by (rewrite <- (Qfloor_Z N); by apply Qfloor_resp_le).
  unfold Seed.sample_size. fold N. fold x. rewrite py_int_floor by done.
  split; [done|]. lia.
Qed.

(** The number of users left out of the sample lies between 25% and
    35% of all users, give or take one. *)
Lemma complement_bounds (n : nat) (f : Q) (k : Z) :
  (0.65 <= f)%Q -> (f <= 0.75)%Q ->
  Qfloor (inject_Z (Z.of_nat n) * f) <= k
    <= Qfloor (inject_Z (Z.of_nat n) * f) + 1 ->
  (0.25 * inject_Z (Z.of_nat n) - 1 <= inject_Z (Z.of_nat n - k))%Q
  ∧ (inject_Z (Z.of_nat n - k) <= 0.35 * inject_Z (Z.of_nat n) + 1)%Q.
Proof.
  intros Hlo Hhi [Hk1 Hk2].
  set (N := Z.of_nat n) in *. set (x := (inject_Z N * f)%Q) in *.
  assert (0 <= inject_Z N)%Q as HN0
    by (change 0%Q with (inject_Z 0); rewrite <- Zle_Qle; lia).
  pose proof (Qfloor_le x) as Hfl. pose proof (Qlt_floor x) as Hfu.
  rewrite Zle_Qle in Hk1, Hk2.
  rewrite inject_Z_plus in Hk2, Hfu.
  unfold Zminus. rewrite inject_Z_plus, inject_Z_opp.
  change (inject_Z 1) with 1%Q in *.
  unfold x in *. split; nra.
Qed.

Lemma select_users_with_tasks_ok (user_ids : list Z) (w : Seed.World) :
  user_ids ≠ [] ->
  Z.of_nat (length user_ids) <= 2 ^ 53 ->
  exists picked,
    Seed.select_users_with_tasks user_ids w
    = (Ok (list_to_set picked),
       {| Seed.store := Seed.store w;
          Seed.rng :=
            (random_sample user_ids
               (Z.to_nat (Seed.sample_size (length user_ids)
                            (random_uniform 0.65 0.75 (Seed.rng w)).1))
               (random_uniform 0.65 0.75 (Seed.rng w)).2).2;
          Seed.fake := Seed.fake w |})
    ∧ picked ⊆+ user_ids
    ∧ Z.of_nat (length picked)
      = Seed.sample_size (length user_ids)
          (random_uniform 0.65 0.75 (Seed.rng w)).1.
Proof.
  intros Hne Hbig.
  set (f := (random_uniform 0.65 0.75 (Seed.rng w)).1).
  destruct (uniform_range 0.65 0.75 (Seed.rng w)) as [Hlo Hhi]; [lra|].
  assert (1 <= length user_ids)%nat as Hlen
    by (destruct user_ids; [done|simpl; lia]).
  destruct (sample_size_bounds (length user_ids) f Hlen Hbig Hlo Hhi)
    as (_ & Hk & _).
  set (k := Seed.sample_size (length user_ids) f) in *.
  destruct (sample_spec user_ids (Z.to_nat k)
              (random_uniform 0.65 0.75 (Seed.rng w)).2) as [Hl Hs]; [lia|].
  eexists. split_and!; [|exact Hs|rewrite Hl; lia].
  unfold Seed.select_users_with_tasks.
  erewrite bind_ok by apply on_rng_eq. fold f. fold k.
  unfold Seed.sample. rewrite decide_True by lia.
  erewrite bind_ok by apply on_rng_eq. done.
Qed.

End SampleSize.

(** The size of the selection, for any non-empty list of distinct ids. *)
Lemma select_users_with_tasks_size {RT : Runtime} {RL : RuntimeLaws RT}
    (user_ids : list Z) (w : Seed.World) :
  user_ids ≠ [] -> NoDup user_ids ->
  Z.of_nat (length user_ids) <= 2 ^ 53 ->
  exists S w',
    Seed.select_users_with_tasks user_ids w = (Ok S, w')
    ∧ Seed.store w' = Seed.store w
    ∧ (0.65 <= (random_uniform 0.65 0.75 (Seed.rng w)).1)%Q
    ∧ ((random_uniform 0.65 0.75 (Seed.rng w)).1 <= 0.75)%Q
    ∧ Z.of_nat (size S)
      = Z.max 1 (py_int (fl (inject_Z (Z.of_nat (length user_ids))
                             * (random_uniform 0.65 0.75 (Seed.rng w)).1)))
    ∧ Z.of_nat (size S)
      = Z.max 1 (Qfloor (fl (inject_Z (Z.of_nat (length user_ids))
                             * (random_uniform 0.65 0.75 (Seed.rng w)).1)))
    ∧ (forall u, u ∈ S -> u ∈ user_ids)
    ∧ 1 <= Z.of_nat (size S) <= Z.of_nat (length user_ids)
    ∧ Qfloor (inject_Z (Z.of_nat (length user_ids))
              * (random_uniform 0.65 0.75 (Seed.rng w)).1)
      <= Z.of_nat (size S)
      <= Qfloor (inject_Z (Z.of_nat (length user_ids))
                 * (random_uniform 0.65 0.75 (Seed.rng w)).1) + 1
    ∧ (0.25 * inject_Z (Z.of_nat (length user_ids)) - 1
       <= inject_Z (Z.of_nat (length user_ids) - Z.of_nat (size S)))%Q
    ∧ (inject_Z (Z.of_nat (length user_ids) - Z.of_nat (size S))
       <= 0.35 * inject_Z (Z.of_nat (length user_ids)) + 1)%Q.
Proof.
  intros Hne Hnd Hbig.
  destruct (select_users_with_tasks_ok user_ids w Hne Hbig)
    as (picked & Hrun & Hsub & Hlen).
  assert (NoDup picked) as Hndp by (by eapply NoDup_submseteq_inv).
  destruct (uniform_range 0.65 0.75 (Seed.rng w)) as [Hlo Hhi]; [lra|].
  assert (1 <= length user_ids)%nat as Hn
    by (destruct user_ids; [done|simpl; lia]).
  destruct (sample_size_bounds (length user_ids) _ Hn Hbig Hlo Hhi)
    as (Heq & Hrange & Hnear).
  assert (Z.of_nat (size (list_to_set picked : gset Z))
          = Seed.sample_size (length user_ids)
              (random_uniform 0.65 0.75 (Seed.rng w)).1) as Hsize
    by (by rewrite size_list_to_set).
  destruct (complement_bounds (length user_ids) _ _ Hlo Hhi Hnear) as [Hc1 Hc2].
  eexists _, _. split; [exact Hrun|]. rewrite Hsize.
  split_and!; try done; try lia.
  intros u Hu. apply elem_of_list_to_set in Hu.
  by eapply elem_of_submseteq.
Qed.

(** ** seed.py: the round robin over the status ids *)

Lemma rr_next_drop (s0 : Z) (srest : list Z) (p : nat) :
  (p <= length (s0 :: srest))%nat ->
  exists x,
    (s0 :: srest) !! (p mod length (s0 :: srest))%nat = Some x
    ∧ Seed.rr_next s0 srest (drop p (s0 :: srest))
      = (x, drop (p mod length (s0 :: srest) + 1) (s0 :: srest)).
Proof.
  intros Hp. set (sids := s0 :: srest) in *.
  destruct (decide (p = length sids)) as [->|Hne].
  - rewrite drop_all, Nat.Div0.mod_same. exists s0. done.
  - rewrite Nat.mod_small by lia.
    destruct (lookup_lt_is_Some_2 sids p) as [x Hx]; [lia|].
    exists x. split; [done|].
    rewrite (drop_S _ _ _ Hx), Nat.add_1_r. done.
Qed.

Lemma cycle_step (k r : nat) :
  (0 < k)%nat -> (r < k)%nat ->
  forall q,
    ((k * q + r + 1) / k = if decide (r + 1 = k) then q + 1 else q)%nat
    ∧ ((k * q + r + 1) mod k = if decide (r + 1 = k) then 0 else r + 1)%nat.
Proof.
  intros Hk Hr q. destruct (decide (r + 1 = k)%nat) as [Heq|Hne].
  - assert (k * q + r + 1 = k * (q + 1) + 0)%nat as -> by lia.
    split; [symmetry; eapply Nat.div_unique|symmetry; eapply Nat.mod_unique];
      try reflexivity; lia.
  - assert (k * q + r + 1 = k * q + (r + 1))%nat as -> by lia.
    split; [symmetry; eapply Nat.div_unique|symmetry; eapply Nat.mod_unique];
      try reflexivity; lia.
Qed.

(** How often a value occurs in a list that cycles over a duplicate-free
    list: the quotient, and one more for the positions the last,
    incomplete pass reaches. *)
Lemma cycle_count (sids l : list Z) (s : Z) (idx : nat) :
  NoDup sids -> sids !! idx = Some s ->
  (forall j x, l !! j = Some x -> sids !! (j mod length sids)%nat = Some x) ->
  length (filter (fun x => x = s) l)
  = (length l / length sids
     + if decide (idx < length l mod length sids) then 1 else 0)%nat.
Proof.
  intros Hnd Hidx. set (k := length sids).
  assert (0 < k)%nat as Hk
    by (apply lookup_lt_Some in Hidx; unfold k; lia).
  assert (idx < k)%nat as Hidxk by (by apply lookup_lt_Some in Hidx).
  induction l as [|x l IH] using rev_ind; intros Hcyc.
  - simpl. rewrite Nat.Div0.div_0_l, Nat.Div0.mod_0_l.
    rewrite decide_False by lia. done.
  - rewrite filter_app, !length_app. rewrite IH; cycle 1.
    { intros j y Hj. apply Hcyc. by apply lookup_app_l_Some. }
    assert (sids !! (length l mod k)%nat = Some x) as Hx.
    { apply Hcyc. rewrite lookup_app_r by lia. by rewrite Nat.sub_diag. }
    pose proof (Nat.div_mod_eq (length l) k) as Hdm.
    pose proof (Nat.mod_upper_bound (length l) k ltac:(lia)) as Hr.
    destruct (cycle_step k (length l mod k) Hk Hr (length l / k)) as [Hd Hm].
    rewrite <- Hdm in Hd, Hm. change (length [x]) with 1%nat. rewrite Hd, Hm.
    rewrite list.filter_singleton by exact [].
    destruct (decide (x = s)) as [->|Hxs].
    + assert (length l mod k = idx)%nat as Hpos
        by (eapply NoDup_lookup; eauto).
      simpl. repeat case_decide; lia.
    + assert (length l mod k ≠ idx)%nat as Hpos by congruence.
      simpl. repeat case_decide; lia.
Qed.

Lemma ceil_div (n k : nat) :
  (0 < k)%nat ->
  ((n + k - 1) / k = n / k + if decide (n mod k = 0) then 0 else 1)%nat.
Proof.
  intros Hk. pose proof (Nat.div_mod_eq n k) as Hdm.
  pose proof (Nat.mod_upper_bound n k ltac:(lia)) as Hr.
  destruct (decide (n mod k = 0)%nat) as [H0|H0].
  - symmetry. apply (Nat.div_unique _ _ _ (k - 1)); lia.
  - symmetry. apply (Nat.div_unique _ _ _ (n mod k - 1)); lia.
Qed.

Lemma executemany_insert_task_ok (clock : nat -> timestamp)
    (rows : list (string * option string * Z * Z)) (st : Store) :
  (forall row, row ∈ rows ->
     Seed.row_status row ∈ status_id <$> status st
     ∧ Seed.row_owner row ∈ user_id <$> users st) ->
  exists new,
    Sql.executemany Sql.insert_task clock rows st
    = (Ok tt, {| status := status st; users := users st;
                 tasks := tasks st ++ new |})
    ∧ Seed.task_row <$> new = rows
    ∧ (forall i t, new !! i = Some t ->
         created_at t = clock i ∧ updated_at t = clock i).
Proof.
  revert clock st. induction rows as [|row rows IH]; intros clock st Hfk.
  - exists []. rewrite app_nil_r. by destruct st.
  - destruct (Hfk row) as [Hs Hu]; [left|].
    destruct row as [[[ttl desc] sid] uid].
    unfold Seed.row_status, Seed.row_owner in Hs, Hu. simpl in Hs, Hu.
    simpl. unfold bind at 1. unfold Sql.insert_task at 1.
    rewrite !decide_True by done.
    match goal with |- context [Sql.executemany _ ?c rows ?s] =>
      destruct (IH c s) as (new & Hrun & Hrows & Htime) end.
    { intros r Hr. apply Hfk. by right. }
    rewrite Hrun. simpl. eexists (_ :: new). split_and!.
    + by rewrite <- app_assoc.
    + rewrite fmap_cons. by f_equal.
    + intros [|i] t Ht; [by injection Ht as <-|]. by apply Htime.
Qed.

Section GenRows.
Context {RT : Runtime} {RL : RuntimeLaws RT}.

Lemma gen_rows_ok (n : nat) (uwt : gset Z) (s0 : Z) (srest : list Z)
    (p i : nat) (acc : list (string * option string * Z * Z))
    (w : Seed.World) :
  set_iter uwt ≠ [] ->
  (p <= length (s0 :: srest))%nat ->
  (p mod length (s0 :: srest) = i mod length (s0 :: srest))%nat ->
  exists new w',
    Seed.gen_rows n uwt s0 srest (drop p (s0 :: srest)) acc w
    = (Ok (acc ++ new), w')
    ∧ Seed.store w' = Seed.store w
    ∧ length new = n
    ∧ (forall j row, new !! j = Some row ->
         (s0 :: srest) !! ((i + j) mod length (s0 :: srest))%nat
         = Some (Seed.row_status row)
         ∧ Seed.row_owner row ∈ set_iter uwt).
Proof.
  intros Hne. revert p i acc w.
  induction n as [|n IH]; intros p i acc w Hp Hpi.
  - exists [], w. rewrite app_nil_r. split_and!; try done.
  - destruct (rr_next_drop s0 srest p Hp) as (x & Hx & Hnext).
    destruct (gen_row_ok uwt s0 srest (drop p (s0 :: srest)) w Hne)
      as (row & w1 & Hrow & Hst & Hstatus & Howner & _).
    rewrite Hnext in Hrow, Hstatus. cbn [fst snd] in Hrow, Hstatus.
    set (k := length (s0 :: srest)) in *.
    assert (0 < k)%nat as Hk by (unfold k; simpl; lia).
    destruct (IH (p mod k + 1)%nat (i + 1)%nat (acc ++ [row]) w1)
      as (new & w' & Hrun & Hst' & Hlen & Hall).
    { pose proof (Nat.mod_upper_bound p k). lia. }
    { rewrite Hpi. rewrite Nat.Div0.add_mod_idemp_l. done. }
    exists (row :: new), w'. split_and!.
    + cbn [Seed.gen_rows]. erewrite bind_ok by exact Hrow. cbn [fst snd].
      rewrite Hrun, <- app_assoc. done.
    + congruence.
    + simpl. lia.
    + intros [|j] r Hr.
      * injection Hr as <-. rewrite Nat.add_0_r, <- Hpi, Hstatus. done.
      * destruct (Hall j r Hr) as [H1 H2].
        replace (i + S j)%nat with (i + 1 + j)%nat by lia. done.
Qed.

Lemma get_ids_users (w : Seed.World) :
  Seed.on_store (Seed.get_ids "users") w
  = (Ok (user_id <$> users (Seed.store w)), w).
Proof. by destruct w. Qed.

Lemma get_ids_status (w : Seed.World) :
  Seed.on_store (Seed.get_ids "status") w
  = (Ok (status_id <$> status (Seed.store w)), w).
Proof. by destruct w. Qed.

Lemma seed_tasks_ok (clock : nat -> timestamp) (n : Z) (w : Seed.World) :
  users (Seed.store w) ≠ [] -> status (Seed.store w) ≠ [] ->
  Z.of_nat (length (users (Seed.store w))) <= 2 ^ 53 ->
  exists new w' picked,
    Seed.seed_tasks clock n w = (Ok tt, w')
    ∧ status (Seed.store w') = status (Seed.store w)
    ∧ users (Seed.store w') = users (Seed.store w)
    ∧ tasks (Seed.store w') = tasks (Seed.store w) ++ new
    ∧ length new = Z.to_nat n
    ∧ (Seed.select_users_with_tasks (user_id <$> users (Seed.store w)) w).1
      = Ok (list_to_set picked)
    ∧ picked ⊆+ user_id <$> users (Seed.store w)
    ∧ Z.of_nat (length picked)
      = Seed.sample_size (length (users (Seed.store w)))
          (random_uniform 0.65 0.75 (Seed.rng w)).1
    ∧ (forall i t, new !! i = Some t ->
         (status_id <$> status (Seed.store w))
           !! (i mod length (status (Seed.store w)))%nat
         = Some (task_status_id t)
         ∧ task_user_id t ∈ picked
         ∧ created_at t = clock i ∧ updated_at t = clock i).
Proof.
  intros Hu Hs Hbig. destruct w as [st r f]. simpl in *.
  unfold Seed.seed_tasks.
  erewrite bind_ok by apply get_ids_users.
  erewrite bind_ok by apply get_ids_status. simpl.
  destruct (users st) as [|u us] eqn:Hus; [done|].
  destruct (status st) as [|s ss] eqn:Hss; [done|].
  cbn [fmap list_fmap].
  set (uids := user_id u :: (user_id <$> us)).
  set (sids := status_id s :: (status_id <$> ss)).
  set (w0 := {| Seed.store := st; Seed.rng := r; Seed.fake := f |}).
  destruct (select_users_with_tasks_ok uids w0) as (picked & Hsel & Hsub & Hlen).
  { done. }
  { unfold uids. simpl. rewrite length_fmap. simpl in Hbig. lia. }
  erewrite bind_ok by exact Hsel.
  assert (1 <= length picked)%nat as Hpick.
  { destruct (uniform_range 0.65 0.75 (Seed.rng w0)) as [Hlo Hhi]; [lra|].
    destruct (sample_size_bounds (length uids)
                (random_uniform 0.65 0.75 (Seed.rng w0)).1) as (_ & Hk & _);
      try done.
    - unfold uids. simpl. lia.
    - unfold uids. simpl. rewrite length_fmap. simpl in Hbig. lia.
    - lia. }
  assert (forall x, x ∈ set_iter (list_to_set picked : gset Z) -> x ∈ picked)
    as Hiter.
  { intros x Hx. rewrite set_iter_perm in Hx.
    apply elem_of_elements in Hx. by apply elem_of_list_to_set in Hx. }
  assert (set_iter (list_to_set picked : gset Z) ≠ []) as Hne.
  { intros Hnil. destruct picked as [|x picked]; [simpl in Hpick; lia|].
    assert (x ∈ set_iter (list_to_set (x :: picked) : gset Z)) as Hx.
    { rewrite set_iter_perm. apply elem_of_elements, elem_of_list_to_set. left. }
    rewrite Hnil in Hx. inversion Hx. }
  match goal with |- context [bind (Seed.gen_rows ?m ?a ?b ?c [] []) _ ?w1] =>
    destruct (gen_rows_ok m a b c (length (b :: c)) 0 [] w1 Hne)
      as (rows & w2 & Hgen & Hst2 & Hlr & Hall)
  end.
  { lia. }
  { by rewrite Nat.Div0.mod_same, Nat.Div0.mod_0_l. }
  rewrite drop_all, app_nil_l in Hgen. fold sids in Hgen, Hall.
  erewrite bind_ok by exact Hgen. simpl in Hst2.
  rewrite on_store_eq.
  destruct (executemany_insert_task_ok clock rows (Seed.store w2))
    as (new & Hins & Hrows & Htime).
  { intros row Hrow. apply list_elem_of_lookup in Hrow as [j Hj].
    destruct (Hall j row Hj) as [H1 H2]. rewrite Hst2, Hus, Hss.
    cbn [fmap list_fmap]. fold uids sids. split.
    - by eapply list_elem_of_lookup_2.
    - eapply elem_of_submseteq; [|exact Hsub]. by apply Hiter. }
  rewrite Hins. simpl. rewrite Hst2, Hus, Hss.
  eexists new, _, picked. split; [reflexivity|]. simpl.
  assert (length new = length rows) as Hln by (by rewrite <- Hrows, length_fmap).
  split_and!; try done; try lia.
  { change (user_id <$> u :: us) with uids. fold w0. by rewrite Hsel. }
  { fold w0 in Hlen. unfold uids in Hlen. simpl in Hlen.
    rewrite length_fmap in Hlen. exact Hlen. }
  intros i t Ht.
  assert (rows !! i = Some (Seed.task_row t)) as Hri
    by (by rewrite <- Hrows, list_lookup_fmap, Ht).
  destruct (Hall i _ Hri) as [H1 H2]. simpl in H1.
  unfold sids in H1. simpl in H1. rewrite length_fmap in H1.
  destruct (Htime i t Ht) as [? ?]. split_and!; try done.
  by apply Hiter.
Qed.

End GenRows.

(** C4: on a store with users and with k >= 1 status rows, seed_tasks
    succeeds and appends exactly N_t tasks; the i-th of them (from 0) gets
    the status id that stands at index i mod k of the status table read in
    insertion order; and when the status ids are distinct, every status id
    of the table is assigned floor(N_t / k) or ceil(N_t / k) times. *)
Theorem seed_tasks_round_robin {RT : Runtime} {RL : RuntimeLaws RT}
    (clock : nat -> timestamp) (n : Z) (w : Seed.World) :
  users (Seed.store w) ≠ [] -> status (Seed.store w) ≠ [] ->
  Z.of_nat (length (users (Seed.store w))) <= 2 ^ 53 ->
  exists new w',
    Seed.seed_tasks clock n w = (Ok tt, w')
    ∧ tasks (Seed.store w') = tasks (Seed.store w) ++ new
    ∧ length new = Z.to_nat n
    ∧ (forall i t, new !! i = Some t ->
         (status_id <$> status (Seed.store w))
           !! (i mod length (status (Seed.store w)))%nat
         = Some (task_status_id t))
    ∧ (NoDup (status_id <$> status (Seed.store w)) ->
       forall s, s ∈ status_id <$> status (Seed.store w) ->
         (length (filter (fun x => x = s) (task_status_id <$> new))
          = Z.to_nat n / length (status (Seed.store w))
          ∨ length (filter (fun x => x = s) (task_status_id <$> new))
            = (Z.to_nat n + length (status (Seed.store w)) - 1)
              / length (status (Seed.store w)))%nat).
Proof.
  intros Hu Hs Hbig.
  destruct (seed_tasks_ok clock n w Hu Hs Hbig)
    as (new & w' & picked & Hrun & _ & _ & Htasks & Hlen & _ & _ & _ & Hall).
  exists new, w'. split_and!; try done.
  - intros i t Ht. by destruct (Hall i t Ht).
  - intros Hnd s Hin. apply list_elem_of_lookup in Hin as [idx Hidx].
    set (k := length (status (Seed.store w))).
    assert (0 < k)%nat as Hk
      by (unfold k; destruct (status (Seed.store w)); [done|simpl; lia]).
    rewrite (cycle_count (status_id <$> status (Seed.store w)) _ s idx Hnd Hidx);
      cycle 1.
    { intros j x Hj. rewrite list_lookup_fmap in Hj.
      destruct (new !! j) as [t|] eqn:Ht; [|done]. injection Hj as <-.
      rewrite length_fmap. by destruct (Hall j t Ht). }
    rewrite !length_fmap, Hlen. fold k. rewrite (ceil_div _ k Hk).
    pose proof (Nat.mod_upper_bound (Z.to_nat n) k ltac:(lia)).
    repeat case_decide; lia.
Qed.

Lemma seed_tasks_round_robin_witness :
  exists new w',
    Seed.seed_tasks (RT := Tape.runtime) (fun _ => 20) 5
      (tape_world sample_store [(11 # 16)%Q; (1 # 4)%Q]) = (Ok tt, w')
    ∧ tasks (Seed.store w') = tasks sample_store ++ new
    ∧ length new = 5%nat.
Proof.
  destruct (seed_tasks_round_robin (RL := tape_laws) (fun _ => 20) 5
              (tape_world sample_store [(11 # 16)%Q; (1 # 4)%Q]))
    as (new & w' & Hrun & Htasks & Hlen & _).
  - discriminate.
  - discriminate.
  - by vm_compute.
  - exists new, w'. exact (conj Hrun (conj Htasks Hlen)).
Defined.

(** ** seed.py: the users that receive tasks, in seed_tasks *)

Lemma has_no_task_iff (st : Store) (u : UserRow) :
  Manage.has_no_task st u
  <-> forall t, t ∈ tasks st -> task_user_id t ≠ user_id u.
Proof. unfold Manage.has_no_task. apply filter_eq_nil. Qed.

Lemma length_filter_split {A} (P : A -> Prop) `{!forall x, Decision (P x)}
    (l : list A) :
  (length (filter P l) + length (filter (fun x => ¬ P x) l) = length l)%nat.
Proof.
  induction l as [|x l IH]; [done|].
  rewrite !filter_cons. destruct (decide (P x)) as [HP|HP].
  - rewrite decide_False by tauto. simpl. lia.
  - rewrite decide_True by done. simpl. lia.
Qed.

Lemma length_filter_mono {A} (P Q : A -> Prop) `{!forall x, Decision (P x)}
    `{!forall x, Decision (Q x)} (l : list A) :
  (forall x, x ∈ l -> P x -> Q x) ->
  (length (filter P l) <= length (filter Q l))%nat.
Proof.
  induction l as [|x l IH]; intros Himp; [done|].
  assert (length (filter P l) <= length (filter Q l))%nat as IH'
    by (apply IH; intros y Hy; apply Himp; by right).
  rewrite !filter_cons. destruct (decide (P x)) as [HP|HP].
  - rewrite decide_True by (apply Himp; [left|done]). simpl. lia.
  - destruct (decide (Q x)); simpl; lia.
Qed.

Lemma length_filter_by_key (us : list UserRow) (picked : list Z) :
  NoDup (user_id <$> us) ->
  (length (filter (fun u => user_id u ∈ picked) us) <= length picked)%nat.
Proof.
  intros Hnd.
  rewrite <- (length_fmap user_id (filter _ us)).
  apply submseteq_length, NoDup_submseteq.
  - eapply sublist_NoDup; [exact Hnd|apply fmap_sublist, sublist_filter].
  - intros x Hx. apply list_elem_of_fmap in Hx as (u & -> & Hu).
    by apply list_elem_of_filter in Hu as [? _].
Qed.

(** The users outside a set that owns every task have no task. *)
Lemma users_outside_owners_without_tasks (st : Store) (S : gset Z) :
  NoDup (user_id <$> users st) ->
  (forall t, t ∈ tasks st -> task_user_id t ∈ S) ->
  Z.of_nat (length (users st)) - Z.of_nat (size S)
  <= Z.of_nat (length (Manage.select_users_without_tasks st)).
Proof.
  intros Hnd Hown. unfold Manage.select_users_without_tasks.
  rewrite merge_sort_Permutation.
  pose proof (length_filter_split (fun u => user_id u ∈ elements S) (users st))
    as Hsplit.
  pose proof (length_filter_by_key (users st) (elements S) Hnd) as Hkey.
  assert (length (filter (fun u => ¬ user_id u ∈ elements S) (users st))
          <= length (filter (Manage.has_no_task st) (users st)))%nat as Hmono.
  { apply length_filter_mono. intros u _ Hout. apply has_no_task_iff.
    intros t Ht Heq. apply Hout, elem_of_elements. rewrite <- Heq. by apply Hown. }
  change (size S) with (length (elements S)). lia.
Qed.

(** C3 (amended): on a store with N_u >= 1 users of distinct ids, and for
    the value f that random.uniform(0.65, 0.75) returns, the users selected
    to receive tasks are users of the store and their number is
    max(1, int(N_u * f)), the float product truncated, not rounded to the
    nearest integer; it lies between 1 and N_u and is floor(N_u * f) or one
    more than it. The number of users outside the selection therefore lies
    between 0.25 * N_u - 1 and 0.35 * N_u + 1. When the status table is not
    empty either, seed_tasks succeeds and every task it inserts is owned by
    a selected user, so the users outside the selection receive none: when
    there was no task before, the users left without tasks are at least
    as many as the users outside the selection, so at least
    0.25 * N_u - 1. (They may be more: a selected user that no task draws
    is left without tasks too.) *)
Theorem users_with_tasks_size {RT : Runtime} {RL : RuntimeLaws RT}
    (w : Seed.World) :
  users (Seed.store w) ≠ [] -> NoDup (user_id <$> users (Seed.store w)) ->
  Z.of_nat (length (users (Seed.store w))) <= 2 ^ 53 ->
  exists S w',
    Seed.select_users_with_tasks (user_id <$> users (Seed.store w)) w = (Ok S, w')
    ∧ (0.65 <= (random_uniform 0.65 0.75 (Seed.rng w)).1)%Q
    ∧ ((random_uniform 0.65 0.75 (Seed.rng w)).1 <= 0.75)%Q
    ∧ Z.of_nat (size S)
      = Z.max 1 (py_int (fl (inject_Z (Z.of_nat (length (users (Seed.store w))))
                             * (random_uniform 0.65 0.75 (Seed.rng w)).1)))
    ∧ (forall u, u ∈ S -> u ∈ user_id <$> users (Seed.store w))
    ∧ 1 <= Z.of_nat (size S) <= Z.of_nat (length (users (Seed.store w)))
    ∧ Qfloor (inject_Z (Z.of_nat (length (users (Seed.store w))))
              * (random_uniform 0.65 0.75 (Seed.rng w)).1)
      <= Z.of_nat (size S)
      <= Qfloor (inject_Z (Z.of_nat (length (users (Seed.store w))))
                 * (random_uniform 0.65 0.75 (Seed.rng w)).1) + 1
    ∧ (0.25 * inject_Z (Z.of_nat (length (users (Seed.store w)))) - 1
       <= inject_Z (Z.of_nat (length (users (Seed.store w))) - Z.of_nat (size S)))%Q
    ∧ (inject_Z (Z.of_nat (length (users (Seed.store w))) - Z.of_nat (size S))
       <= 0.35 * inject_Z (Z.of_nat (length (users (Seed.store w)))) + 1)%Q
    ∧ (status (Seed.store w) ≠ [] ->
       forall clock n,
       exists new w'',
         Seed.seed_tasks clock n w = (Ok tt, w'')
         ∧ users (Seed.store w'') = users (Seed.store w)
         ∧ tasks (Seed.store w'') = tasks (Seed.store w) ++ new
         ∧ (forall t, t ∈ new -> task_user_id t ∈ S)
         ∧ (forall u t, u ∈ users (Seed.store w) -> user_id u ∉ S ->
                        t ∈ new -> task_user_id t ≠ user_id u)
         ∧ (tasks (Seed.store w) = [] ->
            exists rows,
              Manage.cmd_users_without_tasks (Seed.store w'')
              = (Ok rows, Seed.store w'')
              ∧ Z.of_nat (length (users (Seed.store w))) - Z.of_nat (size S)
                <= Z.of_nat (length rows)
              ∧ (0.25 * inject_Z (Z.of_nat (length (users (Seed.store w)))) - 1
                 <= inject_Z (Z.of_nat (length rows)))%Q)).
Proof.
  intros Hne Hnd Hbig.
  destruct (select_users_with_tasks_size (user_id <$> users (Seed.store w)) w)
    as (S & w' & Hrun & _ & Hlo & Hhi & Hint & _ & Hsub & Hrange & Hnear & Hc1 & Hc2).
  { by destruct (users (Seed.store w)). }
  { done. }
  { by rewrite length_fmap. }
  rewrite !length_fmap in *.
  exists S, w'. split_and!; try done; try lia.
  intros Hst clock n.
  destruct (seed_tasks_ok clock n w Hne Hst Hbig)
    as (new & w'' & picked & Hseed & _ & Hus & Htasks & _ & Hsel & _ & _ & Hall).
  rewrite Hrun in Hsel. injection Hsel as ->.
  assert (forall t, t ∈ new -> task_user_id t ∈ (list_to_set picked : gset Z)) as Hown.
  { intros t Ht. apply list_elem_of_lookup in Ht as [i Hi].
    destruct (Hall i t Hi) as (_ & Hp & _). by apply elem_of_list_to_set. }
  exists new, w''. split_and!; try done.
  - intros u t _ Hout Ht Heq. apply Hout. rewrite <- Heq. by apply Hown.
  - intros Hnone. exists (Manage.select_users_without_tasks (Seed.store w'')).
    split; [done|].
    assert (Z.of_nat (length (users (Seed.store w)))
            - Z.of_nat (size (list_to_set picked : gset Z))
            <= Z.of_nat (length (Manage.select_users_without_tasks (Seed.store w''))))
      as Hcount.
    { rewrite <- Hus. apply users_outside_owners_without_tasks.
      - by rewrite Hus.
      - intros t Ht. rewrite Htasks, Hnone, app_nil_l in Ht. by apply Hown. }
    split; [exact Hcount|].
    eapply Qle_trans; [exact Hc1|]. by rewrite <- Zle_Qle.
Qed.

Lemma users_with_tasks_size_witness :
  exists S w',
    Seed.select_users_with_tasks (RT := Tape.runtime)
      (user_id <$> users sample_store)
      (tape_world sample_store [(11 # 16)%Q]) = (Ok S, w')
    ∧ 1 <= Z.of_nat (size S) <= 2.
Proof.
  destruct (users_with_tasks_size (RL := tape_laws)
              (tape_world sample_store [(11 # 16)%Q]))
    as (S & w' & Hrun & _ & _ & _ & _ & Hrange & _).
  - discriminate.
  - apply (bool_decide_unpack _). by vm_compute.
  - by vm_compute.
  - exists S, w'. split; [exact Hrun|exact Hrange].
Defined.

(** C3 as stated fails twice. The size: with 12 users and f = 0.71875
    (the draw 0.6875 of the tape), N_u * f = 8.625; seed_tasks selects
    int(8.625) = 8 users, where round(8.625) is 9. The users left without
    tasks: a run of main with --users 12 --tasks 1 gives its one task to
    one user and leaves 11 users without tasks, more than
    0.35 * 12 + 1. *)
Lemma users_with_tasks_truncates :
  ((random_uniform (Runtime := Tape.runtime) 0.65 0.75 [(11 # 16)%Q]).1 == 23 # 32)%Q
  ∧ (exists S,
       (Seed.select_users_with_tasks (RT := Tape.runtime) twelve_users
          (tape_world empty_store [(11 # 16)%Q])).1 = Ok S
       ∧ size S = 8%nat)
  ∧ spec_sample_size 12
      (random_uniform (Runtime := Tape.runtime) 0.65 0.75 [(11 # 16)%Q]).1 = 9
  ∧ (exists w' rows,
       Seed.main (RT := Tape.runtime) (fun _ => 20) (fun _ => 20) 12 1
         (tape_world empty_store []) = (Ok tt, w')
       ∧ length (users (Seed.store w')) = 12%nat
       ∧ length (tasks (Seed.store w')) = 1%nat
       ∧ Manage.cmd_users_without_tasks (Seed.store w') = (Ok rows, Seed.store w')
       ∧ length rows = 11%nat)
  ∧ (0.35 * 12 + 1 < 11)%Q.
Proof.
  split; [by vm_compute|]. split; [|split; [by vm_compute|split; [|by vm_compute]]].
  - eexists. split; [by vm_compute|by vm_compute].
  - do 2 eexists. split; [by vm_compute|]. split_and!; by vm_compute.
Qed.

(** ** seed.py: a run does not depend on the clock or on earlier draws *)

Lemma untimed_inv (st1 st2 : Store) :
  untimed st1 = untimed st2 ->
  status st1 = status st2
  ∧ untimed_user <$> users st1 = untimed_user <$> users st2
  ∧ untimed_task <$> tasks st1 = untimed_task <$> tasks st2
  ∧ user_id <$> users st1 = user_id <$> users st2
  ∧ email <$> users st1 = email <$> users st2
  ∧ task_id <$> tasks st1 = task_id <$> tasks st2.
Proof.
  unfold untimed. intros [= Hs Hu Ht]. split_and!; try done.
  - change user_id with ((fun p : Z * string * string => p.1.1) ∘ untimed_user).
    by rewrite !list_fmap_compose, Hu.
  - change email with ((fun p : Z * string * string => p.2) ∘ untimed_user).
    by rewrite !list_fmap_compose, Hu.
  - change task_id with
      ((fun p : Z * string * option string * Z * Z => p.1.1.1.1) ∘ untimed_task).
    by rewrite !list_fmap_compose, Ht.
Qed.

Lemma agree_store_bind {A B} (c1 c2 : M Store A) (k1 k2 : A -> M Store B) :
  agree_store c1 c2 -> (forall a, agree_store (k1 a) (k2 a)) ->
  agree_store (bind c1 k1) (bind c2 k2).
Proof.
  intros Hc Hk st1 st2 Hst. unfold bind.
  destruct (Hc st1 st2 Hst) as [Ho Hs].
  destruct (c1 st1) as [[a1|e1] s1], (c2 st2) as [[a2|e2] s2];
    simpl in *; try done.
  - injection Ho as <-. by apply Hk.
  - by injection Ho as ->.
Qed.

Lemma agree_store_insert_or_ignore (name : string) :
  agree_store (Sql.insert_or_ignore_status name) (Sql.insert_or_ignore_status name).
Proof.
  intros st1 st2 Hst. destruct (untimed_inv _ _ Hst) as (Hs & Hu & Ht & _).
  unfold Sql.insert_or_ignore_status. rewrite Hs.
  destruct (decide _); [done|]. split; [done|].
  unfold untimed. simpl. by rewrite Hu, Ht.
Qed.

Lemma agree_store_insert_user (now1 now2 : timestamp) (row : string * string) :
  agree_store (Sql.insert_user now1 row) (Sql.insert_user now2 row).
Proof.
  intros st1 st2 Hst.
  destruct (untimed_inv _ _ Hst) as (Hs & Hu & Ht & Hid & Hmail & _).
  unfold Sql.insert_user. destruct row as [name mail]. rewrite Hmail.
  destruct (decide _); [done|]. split; [done|].
  unfold untimed. simpl. rewrite !fmap_app, Hs, Hu, Ht. unfold untimed_user.
  simpl. by rewrite Hid.
Qed.

Lemma agree_store_insert_task (now1 now2 : timestamp)
    (row : string * option string * Z * Z) :
  agree_store (Sql.insert_task now1 row) (Sql.insert_task now2 row).
Proof.
  intros st1 st2 Hst.
  destruct (untimed_inv _ _ Hst) as (Hs & Hu & Ht & Hid & _ & Htid).
  unfold Sql.insert_task. destruct row as [[[ttl desc] sid] uid].
  rewrite Hs, Hid. destruct (decide _); [|done]. destruct (decide _); [|done].
  simpl. rewrite Htid. split; [done|].
  unfold untimed. simpl. by rewrite !fmap_app, Hu, Ht.
Qed.

Lemma agree_store_get_ids (table : string) :
  agree_store (Seed.get_ids table) (Seed.get_ids table).
Proof.
  intros st1 st2 Hst.
  destruct (untimed_inv _ _ Hst) as (Hs & _ & _ & Hid & _ & Htid).
  unfold Seed.get_ids. repeat case_decide; simpl; by rewrite ?Hs, ?Hid, ?Htid.
Qed.

Lemma agree_store_executemany {R A} (stmt1 stmt2 : timestamp -> R -> M Store A)
    (c1 c2 : nat -> timestamp) (rows : list R) :
  (forall n1 n2 r, agree_store (stmt1 n1 r) (stmt2 n2 r)) ->
  agree_store (Sql.executemany stmt1 c1 rows) (Sql.executemany stmt2 c2 rows).
Proof.
  intros Hstmt. revert c1 c2. induction rows as [|r rows IH]; intros c1 c2.
  - by intros st1 st2 Hst.
  - simpl. apply agree_store_bind; [apply Hstmt|]. intros _. apply IH.
Qed.

Section Agree.
Context {RT : Runtime}.

Lemma agree_ret {A} (a : A) : agree (ret a) (ret a).
Proof. by intros w1 w2 Hw. Qed.

Lemma agree_raise {A} (e : Exn) : agree (raise (A := A) e) (raise e).
Proof. by intros w1 w2 Hw. Qed.

Lemma agree_bind {A B} (c1 c2 : M Seed.World A) (k1 k2 : A -> M Seed.World B) :
  agree c1 c2 -> (forall a, agree (k1 a) (k2 a)) ->
  agree (bind c1 k1) (bind c2 k2).
Proof.
  intros Hc Hk w1 w2 Hw. unfold bind.
  destruct (Hc w1 w2 Hw) as [Ho Hs].
  destruct (c1 w1) as [[a1|e1] s1], (c2 w2) as [[a2|e2] s2];
    simpl in *; try done.
  - injection Ho as <-. by apply Hk.
  - by injection Ho as ->.
Qed.

Lemma agree_on_store {A} (c1 c2 : M Store A) :
  agree_store c1 c2 -> agree (Seed.on_store c1) (Seed.on_store c2).
Proof.
  intros Hc w1 w2 (Hst & Hr & Hf). rewrite !on_store_eq.
  destruct (Hc _ _ Hst) as [Ho Hs]. by split.
Qed.

Lemma agree_on_rng {A} (c : Rng -> A * Rng) :
  agree (Seed.on_rng c) (Seed.on_rng c).
Proof.
  intros w1 w2 (Hst & Hr & Hf). rewrite !on_rng_eq, Hr. by split.
Qed.

Lemma agree_on_fake {A} (c : Fk -> A * Fk) :
  agree (Seed.on_fake c) (Seed.on_fake c).
Proof.
  intros w1 w2 (Hst & Hr & Hf). rewrite !on_fake_eq, Hf. by split.
Qed.

Lemma agree_choice (seq : list Z) : agree (Seed.choice seq) (Seed.choice seq).
Proof.
  unfold Seed.choice. destruct (decide _); [apply agree_raise|].
  apply agree_bind; [apply agree_on_rng|]. intros i.
  destruct (seq !! i); [apply agree_ret|apply agree_raise].
Qed.

Lemma agree_sample (pop : list Z) (k : Z) :
  agree (Seed.sample pop k) (Seed.sample pop k).
Proof.
  unfold Seed.sample. destruct (decide _); [apply agree_on_rng|apply agree_raise].
Qed.

Lemma agree_gen_users (n : nat) (rows : list (string * string)) :
  agree (Seed.gen_users n rows) (Seed.gen_users n rows).
Proof.
  revert rows. induction n as [|n IH]; intros rows; [apply agree_ret|].
  simpl. apply agree_bind; [apply agree_on_fake|]. intros name.
  apply agree_bind; [apply agree_on_fake|]. intros mail. apply IH.
Qed.

Lemma agree_seed_users (c1 c2 : nat -> timestamp) (n : Z) :
  agree (Seed.seed_users c1 n) (Seed.seed_users c2 n).
Proof.
  unfold Seed.seed_users. apply agree_bind; [apply agree_gen_users|].
  intros rows. apply agree_on_store, agree_store_executemany.
  intros n1 n2 r. apply agree_store_insert_user.
Qed.

Lemma agree_gen_row (uwt : gset Z) (s0 : Z) (srest rr : list Z) :
  agree (Seed.gen_row uwt s0 srest rr) (Seed.gen_row uwt s0 srest rr).
Proof.
  unfold Seed.gen_row. apply agree_bind; [apply agree_choice|]. intros uid.
  destruct (Seed.rr_next s0 srest rr) as [sid rr'].
  apply agree_bind; [apply agree_on_fake|]. intros sentence.
  apply agree_bind; [apply agree_on_rng|]. intros r.
  apply agree_bind; [|intros desc; apply agree_ret].
  destruct (Qlt_le_dec _ _); [apply agree_ret|].
  destruct (Qlt_le_dec _ _); [apply agree_ret|].
  apply agree_bind; [apply agree_on_fake|]. intros p. apply agree_ret.
Qed.

Lemma agree_gen_rows (n : nat) (uwt : gset Z) (s0 : Z) (srest rr : list Z)
    (rows : list (string * option string * Z * Z)) :
  agree (Seed.gen_rows n uwt s0 srest rr rows)
        (Seed.gen_rows n uwt s0 srest rr rows).
Proof.
  revert rr rows. induction n as [|n IH]; intros rr rows; [apply agree_ret|].
  simpl. apply agree_bind; [apply agree_gen_row|]. intros step. apply IH.
Qed.

Lemma agree_seed_tasks (c1 c2 : nat -> timestamp) (n : Z) :
  agree (Seed.seed_tasks c1 n) (Seed.seed_tasks c2 n).
Proof.
  unfold Seed.seed_tasks.
  apply agree_bind; [apply agree_on_store, agree_store_get_ids|].
  intros user_ids.
  apply agree_bind; [apply agree_on_store, agree_store_get_ids|].
  intros status_ids.
  destruct user_ids as [|u us]; [apply agree_raise|].
  destruct status_ids as [|s0 srest]; [apply agree_raise|].
  apply agree_bind.
  { unfold Seed.select_users_with_tasks.
    apply agree_bind; [apply agree_on_rng|]. intros f.
    apply agree_bind; [apply agree_sample|]. intros picked. apply agree_ret. }
  intros uwt. apply agree_bind; [apply agree_gen_rows|]. intros rows.
  apply agree_on_store, agree_store_executemany.
  intros n1 n2 r. apply agree_store_insert_task.
Qed.

Lemma agree_with_connection {A} (c1 c2 : M Seed.World A) :
  agree c1 c2 -> agree (Seed.with_connection c1) (Seed.with_connection c2).
Proof.
  intros Hc w1 w2 Hw. unfold Seed.with_connection.
  destruct (Hc w1 w2 Hw) as [Ho (Hst & Hr & Hf)].
  destruct (c1 w1) as [[a1|e1] s1], (c2 w2) as [[a2|e2] s2];
    simpl in *; try done.
  split; [done|]. by destruct Hw as (? & _ & _).
Qed.

(** main ends alike from any two worlds whose stores differ at most in
    timestamps, whatever the two states of the generators and whatever
    the clocks of the two runs. *)
Lemma main_agree (cu1 ct1 cu2 ct2 : nat -> timestamp)
    (n_users n_tasks : Z) (w1 w2 : Seed.World) :
  untimed (Seed.store w1) = untimed (Seed.store w2) ->
  (Seed.main cu1 ct1 n_users n_tasks w1).1
  = (Seed.main cu2 ct2 n_users n_tasks w2).1
  ∧ same_untimed (Seed.main cu1 ct1 n_users n_tasks w1).2
                 (Seed.main cu2 ct2 n_users n_tasks w2).2.
Proof.
  intros Hst. unfold Seed.main, bind at 1 3, modify.
  apply agree_with_connection; [|by split].
  apply agree_bind.
  { apply agree_on_store. unfold Seed.seed_status.
    apply agree_store_executemany. intros _ _ name.
    apply agree_store_insert_or_ignore. }
  intros _. apply agree_bind; [apply agree_seed_users|].
  intros _. apply agree_seed_tasks.
Qed.

End Agree.

(** C2: two runs of main with the same --users and --tasks against a fresh
    store end alike whatever state the two generators were in before (both
    are re-seeded with 1337) and whatever the clocks of the two runs read:
    the same outcome, the same status rows, and user and task rows that
    are equal in every column but the timestamps, so task by task the same
    id, title, description, status assignment, owner assignment and
    description state. *)
Theorem main_deterministic {RT : Runtime}
    (cu1 ct1 cu2 ct2 : nat -> timestamp) (n_users n_tasks : Z)
    (r1 r2 : Rng) (f1 f2 : Fk) :
  let run1 := Seed.main cu1 ct1 n_users n_tasks
                {| Seed.store := empty_store; Seed.rng := r1; Seed.fake := f1 |} in
  let run2 := Seed.main cu2 ct2 n_users n_tasks
                {| Seed.store := empty_store; Seed.rng := r2; Seed.fake := f2 |} in
  run1.1 = run2.1
  ∧ status (Seed.store run1.2) = status (Seed.store run2.2)
  ∧ untimed_user <$> users (Seed.store run1.2)
    = untimed_user <$> users (Seed.store run2.2)
  ∧ untimed_task <$> tasks (Seed.store run1.2)
    = untimed_task <$> tasks (Seed.store run2.2)
  ∧ task_pattern <$> tasks (Seed.store run1.2)
    = task_pattern <$> tasks (Seed.store run2.2)
  ∧ Seed.rng run1.2 = Seed.rng run2.2
  ∧ Seed.fake run1.2 = Seed.fake run2.2.
Proof.
  intros run1 run2.
  destruct (main_agree cu1 ct1 cu2 ct2 n_users n_tasks
              {| Seed.store := empty_store; Seed.rng := r1; Seed.fake := f1 |}
              {| Seed.store := empty_store; Seed.rng := r2; Seed.fake := f2 |})
    as (Hout & Hst & Hr & Hf); [done|].
  fold run1 run2 in Hout, Hst, Hr, Hf.
  destruct (untimed_inv _ _ Hst) as (Hs & Hu & Ht & _).
  split_and!; try done.
  change task_pattern with
    ((fun p : Z * string * option string * Z * Z =>
        (p.1.2, p.2, Seed.desc_state p.1.1.2)) ∘ untimed_task).
  by rewrite !list_fmap_compose, Ht.
Qed.


(** A run on the reference runtime: 4 users are written, 2 of them
    receive the 6 tasks, and the statuses are taken in turn. *)
Lemma main_reference_run :
  let run := Seed.main (RT := Tape.runtime) (fun _ => 6)
               (fun i => 7 + Z.of_nat i) 4 6 (tape_world empty_store []) in
  run.1 = Ok tt
  ∧ length (users (Seed.store run.2)) = 4%nat
  ∧ task_pattern <$> tasks (Seed.store run.2)
    = [(1, 2, Seed.Absent); (2, 1, Seed.Empty); (3, 1, Seed.Populated);
       (1, 2, Seed.Populated); (2, 1, Seed.Absent); (3, 2, Seed.Absent)]
  ∧ created_at <$> tasks (Seed.store run.2) = [7; 8; 9; 10; 11; 12].
Proof. by vm_compute. Qed.

(** ** Concrete instances *)

Lemma cmd_update_status_spec_witness :
  exists st1 st2,
    Manage.cmd_update_status spec_schema 100 1 "completed" sample_store = (Ok tt, st1)
    ∧ Manage.cmd_update_status spec_schema 160 1 "new" st1 = (Ok tt, st2)
    ∧ updated_at <$> tasks st1 = [100; 12; 12]
    ∧ updated_at <$> tasks st2 = [160; 12; 12]
    ∧ created_at <$> tasks st2 = [10; 10; 11].
Proof.
  destruct (cmd_update_status_spec spec_schema 100 160 "completed" "new"
              sample_store 0 (mkTask 1 "Write the report" None 1 1 10 10))
    as (s & s2 & t1 & t2 & st1 & st2 & _ & _ & _ & _ & Hr1 & Hr2 & _ & _
        & Ht1 & _ & _ & Ht2 & _ & _ & Hc1 & Hc2 & _ & _ & Hu1 & Hu2 & _).
  - apply (bool_decide_unpack _). by vm_compute.
  - reflexivity.
  - apply (bool_decide_unpack _). by vm_compute.
  - apply (bool_decide_unpack _). by vm_compute.
  - simpl. lia.
  - exists st1, st2. rewrite Ht1, Ht2. simpl in Hu1, Hu2, Hc2.
    split; [exact Hr1|]. split; [exact Hr2|]. simpl.
    by rewrite Hu1, Hu2, Hc2.
Defined.

(** C1 as stated fails: two calls within the same second leave updated_at
    at the same value, so it does not strictly increase; and on a schema
    that does not maintain the column the calls leave it where it was,
    even as the clock advances. *)
Lemma update_status_same_second :
  (let st1 := (Manage.cmd_update_status spec_schema 100 1 "completed" sample_store).2 in
   let st2 := (Manage.cmd_update_status spec_schema 100 1 "new" st1).2 in
   (Manage.cmd_update_status spec_schema 100 1 "completed" sample_store).1 = Ok tt
   ∧ (Manage.cmd_update_status spec_schema 100 1 "new" st1).1 = Ok tt
   ∧ updated_at <$> tasks st1 !! 0%nat = Some 100
   ∧ updated_at <$> tasks st2 !! 0%nat = Some 100)
  ∧ (let sch := {| touch_updated_at := false |} in
     let st1 := (Manage.cmd_update_status sch 100 1 "completed" sample_store).2 in
     let st2 := (Manage.cmd_update_status sch 200 1 "new" st1).2 in
     (Manage.cmd_update_status sch 100 1 "completed" sample_store).1 = Ok tt
     ∧ (Manage.cmd_update_status sch 200 1 "new" st1).1 = Ok tt
     ∧ updated_at <$> tasks st1 !! 0%nat = Some 10
     ∧ updated_at <$> tasks st2 !! 0%nat = Some 10).
Proof. by vm_compute. Qed.

Lemma cmd_add_task_unknown_user_witness :
  Manage.cmd_add_task 50 7 "Plan the trip" None None sample_store
  = (Raise (UserNotFound 7), sample_store).
Proof.
  apply (cmd_add_task_unknown_user 50 7 "Plan the trip" None None sample_store).
  - apply (bool_decide_unpack _). by vm_compute.
  - apply (bool_decide_unpack _). by vm_compute.
Defined.

(** C6 as stated fails for a user id that is no 64-bit integer: 2^63 is
    the id of no user, and add-task fails with OverflowError, not with the
    user-not-found exit. *)
Lemma add_task_uid_out_of_range :
  bool_decide (2 ^ 63 ∈ user_id <$> users sample_store) = false
  ∧ Manage.cmd_add_task 50 (2 ^ 63) "Plan the trip" None None sample_store
    = (Raise OverflowError, sample_store).
Proof. split; by vm_compute. Qed.

Lemma description_three_states_witness :
  exists row rr' w',
    Seed.gen_row (RT := Tape.runtime) {[1; 2]} 1 [2; 3] []
      (tape_world sample_store [(1 # 4)%Q; (1 # 4)%Q]) = (Ok (row, rr'), w')
    ∧ Seed.row_desc row = Some ""%string.
Proof.
  destruct (description_three_states (RL := tape_laws) {[1; 2]} 1 [2; 3] []
              (tape_world sample_store [(1 # 4)%Q; (1 # 4)%Q]))
    as (row & rr' & w' & Hrun & _ & _ & _ & Hempty & _).
  - by vm_compute.
  - exists row, rr', w'. split; [exact Hrun|].
    apply Hempty. by vm_compute.
Defined.

Lemma seed_tasks_needs_referents_witness :
  Seed.seed_tasks (RT := Tape.runtime) (fun _ => 5) 40
    (tape_world empty_store [(1 # 2)%Q])
  = (Raise (RuntimeError "Users/status must be populated before tasks"),
     tape_world empty_store [(1 # 2)%Q]).
Proof.
  apply (seed_tasks_needs_referents (RT := Tape.runtime) (fun _ => 5) 40
           (tape_world empty_store [(1 # 2)%Q])).
  by left.
Defined.

(** * Further properties of the commands *)

(** ** Keys *)

Lemma foldr_max_ge (ids : list Z) (x : Z) : x ∈ ids -> x <= foldr Z.max 0 ids.
Proof.
  induction ids as [|y ids IH]; intros Hx; [by inversion Hx|].
  simpl. apply elem_of_cons in Hx as [->|Hx]; [lia|].
  specialize (IH Hx). lia.
Qed.

Lemma next_id_fresh (ids : list Z) : next_id ids ∉ ids.
Proof.
  intros Hin. apply foldr_max_ge in Hin. unfold next_id in Hin. lia.
Qed.

Lemma next_id_above (ids : list Z) (x : Z) : x ∈ ids -> x < next_id ids.
Proof. intros Hin. apply foldr_max_ge in Hin. unfold next_id. lia. Qed.

Lemma NoDup_snoc_fresh {A} (l : list A) (x : A) :
  NoDup l -> x ∉ l -> NoDup (l ++ [x]).
Proof.
  intros Hnd Hx. apply NoDup_app. split; [done|].
  split; [|apply NoDup_singleton].
  intros y Hy Hy'. apply list_elem_of_singleton in Hy'. by subst.
Qed.

(** ** manage_alt.py: cmd_add_task, the other paths *)

Lemma ensure_user_exists_ok (uid : Z) (st : Store) :
  uid ∈ user_id <$> users st -> Manage.ensure_user_exists uid st = (Ok tt, st).
Proof.
  intros Hin. unfold Manage.ensure_user_exists, Sql.select_users_by_id.
  destruct (filter (fun u => user_id u = uid) (users st)) as [|u l] eqn:Hf; [|done].
  exfalso. apply list_elem_of_fmap in Hin as (u & -> & Hu).
  rewrite filter_eq_nil in Hf. by apply (Hf u).
Qed.

Lemma ensure_task_exists_absent (tid : Z) (st : Store) :
  tid ∉ task_id <$> tasks st ->
  Manage.ensure_task_exists tid st
  = (Raise (if decide (int64 tid) then TaskNotFound tid else OverflowError), st).
Proof.
  intros Habs. unfold Manage.ensure_task_exists, Sql.select_tasks_by_id.
  assert (filter (fun t => task_id t = tid) (tasks st) = []) as ->;
    [|by destruct (decide _)].
  apply filter_eq_nil. intros t Ht Heq. apply Habs.
  apply list_elem_of_fmap. by exists t.
Qed.

Lemma ensure_task_exists_ok (tid : Z) (st : Store) :
  tid ∈ task_id <$> tasks st -> Manage.ensure_task_exists tid st = (Ok tt, st).
Proof.
  intros Hin. unfold Manage.ensure_task_exists, Sql.select_tasks_by_id.
  destruct (filter (fun t => task_id t = tid) (tasks st)) as [|t l] eqn:Hf; [|done].
  exfalso. apply list_elem_of_fmap in Hin as (t & -> & Ht).
  rewrite filter_eq_nil in Hf. by apply (Hf t).
Qed.

Lemma cmd_add_task_run (now : timestamp) (uid : Z) (ttl : string)
    (desc : option string) (name : option string) (st : Store) :
  uid ∈ user_id <$> users st ->
  default "new"%string name ∈ status_name <$> status st ->
  exists s,
    s ∈ status st ∧ status_name s = default "new"%string name
    ∧ Manage.cmd_add_task now uid ttl desc name st
      = (Ok (next_id (task_id <$> tasks st)),
         {| status := status st; users := users st;
            tasks := tasks st ++
                     [{| task_id := next_id (task_id <$> tasks st);
                         title := ttl; description := desc;
                         task_status_id := status_id s; task_user_id := uid;
                         created_at := now; updated_at := now |}] |}).
Proof.
  intros Hu Hn.
  destruct (status_id_by_name_present _ st Hn) as (s & Hs & Hname & Hr).
  exists s. split; [done|]. split; [done|].
  unfold Manage.cmd_add_task.
  erewrite bind_ok by (by apply ensure_user_exists_ok).
  assert (match name with Some n => n | None => "new"%string end
          = default "new"%string name) as -> by (by destruct name).
  erewrite bind_ok by exact Hr.
  unfold Sql.insert_task. rewrite decide_True; cycle 1.
  { apply list_elem_of_fmap. by exists s. }
  by rewrite decide_True.
Qed.





(** ** manage_alt.py: cmd_update_status, the failing paths *)


(** ** The schema's promises are kept *)

Lemma preserves_ret {S A} (P : S -> Prop) (a : A) : preserves P (ret a).
Proof. by intros s Hs. Qed.

Lemma preserves_raise {S A} (P : S -> Prop) (e : Exn) :
  preserves P (raise (A := A) e).
Proof. by intros s Hs. Qed.

Lemma preserves_bind {S A B} (P : S -> Prop) (c : M S A) (k : A -> M S B) :
  preserves P c -> (forall a, preserves P (k a)) -> preserves P (bind c k).
Proof.
  intros Hc Hk s Hs. unfold bind. specialize (Hc s Hs).
  destruct (c s) as [[a|e] s']; simpl in *; [by apply Hk|done].
Qed.

Lemma preserves_executemany {S R A} (P : S -> Prop)
    (stmt : timestamp -> R -> M S A) (clock : nat -> timestamp) (rows : list R) :
  (forall now r, preserves P (stmt now r)) ->
  preserves P (Sql.executemany stmt clock rows).
Proof.
  intros Hstmt. revert clock. induction rows as [|r rows IH]; intros clock.
  - apply preserves_ret.
  - simpl. apply preserves_bind; [apply Hstmt|]. intros _. apply IH.
Qed.

Lemma insert_task_consistent (now : timestamp)
    (row : string * option string * Z * Z) :
  preserves consistent (Sql.insert_task now row).
Proof.
  intros st (Hsi & Hsn & Hui & Hue & Hti & Hfk).
  destruct row as [[[ttl desc] sid] uid]. unfold Sql.insert_task.
  destruct (decide _) as [Hs|]; [|done]. destruct (decide _) as [Hu|]; [|done].
  unfold consistent. cbn [snd status users tasks]. split_and!; try done.
  - rewrite fmap_app. apply NoDup_snoc_fresh; [done|apply next_id_fresh].
  - intros t Ht. apply elem_of_app in Ht as [Ht|Ht]; [by apply Hfk|].
    apply list_elem_of_singleton in Ht as ->. done.
Qed.

Lemma update_task_status_consistent (sch : Schema) (now : timestamp) (sid tid : Z) :
  preserves consistent (Sql.update_task_status sch now sid tid).
Proof.
  intros st (Hsi & Hsn & Hui & Hue & Hti & Hfk).
  unfold Sql.update_task_status. destruct (decide _) as [Hok|]; [|done].
  unfold consistent. cbn [snd status users tasks]. split_and!; try done.
  - rewrite <- list_fmap_compose.
    erewrite list_fmap_ext; [exact Hti|]. intros i t _. simpl.
    by destruct (decide _).
  - intros t' Ht'. apply list_elem_of_fmap in Ht' as (t & -> & Ht).
    destruct (decide (task_id t = tid)) as [Heq|]; [|by apply Hfk].
    simpl. split; [|by apply Hfk].
    destruct Hok as [Hnone|Hsid]; [|done].
    exfalso. unfold Sql.select_tasks_by_id in Hnone.
    rewrite filter_eq_nil in Hnone. by apply (Hnone t).
Qed.

Lemma insert_or_ignore_status_consistent (name : string) :
  preserves consistent (Sql.insert_or_ignore_status name).
Proof.
  intros st (Hsi & Hsn & Hui & Hue & Hti & Hfk).
  unfold Sql.insert_or_ignore_status. destruct (decide _) as [|Hnew]; [done|].
  unfold consistent. cbn [snd status users tasks]. split_and!; try done.
  - rewrite fmap_app. apply NoDup_snoc_fresh; [done|apply next_id_fresh].
  - rewrite fmap_app. by apply NoDup_snoc_fresh.
  - intros t Ht. destruct (Hfk t Ht) as [H1 H2]. split; [|done].
    rewrite fmap_app. apply elem_of_app. by left.
Qed.

Lemma insert_user_consistent (now : timestamp) (row : string * string) :
  preserves consistent (Sql.insert_user now row).
Proof.
  intros st (Hsi & Hsn & Hui & Hue & Hti & Hfk).
  destruct row as [name mail]. unfold Sql.insert_user.
  destruct (decide _) as [|Hnew]; [done|].
  unfold consistent. cbn [snd status users tasks]. split_and!; try done.
  - rewrite fmap_app. apply NoDup_snoc_fresh; [done|apply next_id_fresh].
  - rewrite fmap_app. by apply NoDup_snoc_fresh.
  - intros t Ht. destruct (Hfk t Ht) as [H1 H2]. split; [done|].
    rewrite fmap_app. apply elem_of_app. by left.
Qed.

Lemma preserves_status_id_by_name (P : Store -> Prop) (name : string) :
  preserves P (Manage.status_id_by_name name).
Proof.
  intros st Hst. unfold Manage.status_id_by_name.
  by destruct (Sql.select_status_ids_by_name name st).
Qed.

Lemma sample_store_consistent : consistent sample_store.
Proof.
  unfold consistent. split_and!; try (apply (bool_decide_unpack _); by vm_compute).
  intros t Ht. simpl in Ht.
  repeat (apply elem_of_cons in Ht as [->|Ht]);
    [| | |by inversion Ht];
    split; apply (bool_decide_unpack _); by vm_compute.
Qed.

(** X4: each command of manage_alt.py keeps the schema's promises: from a
    store with unique keys, unique status names and emails and no
    dangling reference, add-task and update-status end in such a store
    whether they succeed or exit with an error, and the two listing
    commands do not change the store at all. *)
Theorem manage_commands_consistent (sch : Schema) (now : timestamp)
    (uid tid : Z) (ttl : string) (desc : option string)
    (name : option string) (name' : string) (limit : option Z) (st : Store) :
  consistent st ->
  consistent (Manage.cmd_add_task now uid ttl desc name st).2
  ∧ consistent (Manage.cmd_update_status sch now tid name' st).2
  ∧ (Manage.cmd_list_inprogress limit st).2 = st
  ∧ (Manage.cmd_users_without_tasks st).2 = st.
Proof.
  intros Hst. split_and!; try done.
  - revert st Hst. unfold Manage.cmd_add_task.
    apply preserves_bind.
    { intros st Hst. unfold Manage.ensure_user_exists.
      by destruct (Sql.select_users_by_id uid st), (decide (int64 uid)). }
    intros _. apply preserves_bind; [apply preserves_status_id_by_name|].
    intros sid. apply insert_task_consistent.
  - revert st Hst. unfold Manage.cmd_update_status.
    apply preserves_bind.
    { intros st Hst. unfold Manage.ensure_task_exists.
      by destruct (Sql.select_tasks_by_id tid st), (decide (int64 tid)). }
    intros _. apply preserves_bind; [apply preserves_status_id_by_name|].
    intros sid. apply update_task_status_consistent.
  - unfold Manage.cmd_list_inprogress. destruct limit as [n|]; [|done].
    destruct (decide _); [|done]. by destruct (decide _).
Qed.

Lemma manage_commands_consistent_witness :
  consistent (Manage.cmd_add_task 50 2 "Plan the trip" None None sample_store).2
  ∧ consistent (Manage.cmd_update_status spec_schema 60 3 "completed" sample_store).2.
Proof.
  destruct (manage_commands_consistent spec_schema 50 2 3 "Plan the trip" None
              None "completed" None sample_store sample_store_consistent)
    as (H1 & _ & _).
  destruct (manage_commands_consistent spec_schema 60 2 3 "Plan the trip" None
              None "completed" None sample_store sample_store_consistent)
    as (_ & H2 & _).
  exact (conj H1 H2).
Defined.

Section SeedConsistent.
Context {RT : Runtime}.

Lemma preserves_on_store {A} (c : M Store A) :
  preserves consistent c -> preserves world_consistent (Seed.on_store c).
Proof. intros Hc w Hw. rewrite on_store_eq. by apply Hc. Qed.

Lemma preserves_on_rng {A} (c : Rng -> A * Rng) :
  preserves world_consistent (Seed.on_rng c).
Proof. intros w Hw. by rewrite on_rng_eq. Qed.

Lemma preserves_on_fake {A} (c : Fk -> A * Fk) :
  preserves world_consistent (Seed.on_fake c).
Proof. intros w Hw. by rewrite on_fake_eq. Qed.

Lemma preserves_get_ids (table : string) :
  preserves consistent (Seed.get_ids table).
Proof. intros st Hst. unfold Seed.get_ids. by repeat case_decide. Qed.

Lemma seed_status_consistent : preserves consistent Seed.seed_status.
Proof.
  apply preserves_executemany. intros _ name.
  apply insert_or_ignore_status_consistent.
Qed.

Lemma seed_users_consistent (clock : nat -> timestamp) (n : Z) :
  preserves world_consistent (Seed.seed_users clock n).
Proof.
  unfold Seed.seed_users. apply preserves_bind.
  - generalize (@nil (string * string)).
    induction (Z.to_nat n) as [|m IH]; intros rows; [apply preserves_ret|].
    simpl. apply preserves_bind; [apply preserves_on_fake|]. intros name.
    apply preserves_bind; [apply preserves_on_fake|]. intros mail. apply IH.
  - intros rows. apply preserves_on_store, preserves_executemany.
    intros now r. apply insert_user_consistent.
Qed.

Lemma gen_row_consistent (uwt : gset Z) (s0 : Z) (srest rr : list Z) :
  preserves world_consistent (Seed.gen_row uwt s0 srest rr).
Proof.
  unfold Seed.gen_row. apply preserves_bind.
  { unfold Seed.choice. destruct (decide _); [apply preserves_raise|].
    apply preserves_bind; [apply preserves_on_rng|]. intros i.
    destruct (_ !! i); [apply preserves_ret|apply preserves_raise]. }
  intros uid. destruct (Seed.rr_next s0 srest rr) as [sid rr'].
  apply preserves_bind; [apply preserves_on_fake|]. intros sentence.
  apply preserves_bind; [apply preserves_on_rng|]. intros r.
  apply preserves_bind; [|intros desc; apply preserves_ret].
  destruct (Qlt_le_dec _ _); [apply preserves_ret|].
  destruct (Qlt_le_dec _ _); [apply preserves_ret|].
  apply preserves_bind; [apply preserves_on_fake|]. intros p. apply preserves_ret.
Qed.

Lemma seed_tasks_consistent (clock : nat -> timestamp) (n : Z) :
  preserves world_consistent (Seed.seed_tasks clock n).
Proof.
  unfold Seed.seed_tasks.
  apply preserves_bind; [apply preserves_on_store, preserves_get_ids|].
  intros user_ids.
  apply preserves_bind; [apply preserves_on_store, preserves_get_ids|].
  intros status_ids.
  destruct user_ids as [|u us]; [apply preserves_raise|].
  destruct status_ids as [|s0 srest]; [apply preserves_raise|].
  apply preserves_bind.
  { unfold Seed.select_users_with_tasks.
    apply preserves_bind; [apply preserves_on_rng|]. intros f.
    apply preserves_bind; [|intros picked; apply preserves_ret].
    unfold Seed.sample. destruct (decide _);
      [apply preserves_on_rng|apply preserves_raise]. }
  intros uwt. apply preserves_bind.
  { generalize (@nil Z) at 1. generalize (@nil (string * option string * Z * Z)).
    induction (Z.to_nat n) as [|m IH]; intros rows rr; [apply preserves_ret|].
    simpl. apply preserves_bind; [apply gen_row_consistent|].
    intros step. apply IH. }
  intros rows. apply preserves_on_store, preserves_executemany.
  intros now r. apply insert_task_consistent.
Qed.

Lemma with_connection_consistent {A} (body : M Seed.World A) :
  preserves world_consistent body ->
  preserves world_consistent (Seed.with_connection body).
Proof.
  intros Hb w Hw. unfold Seed.with_connection. specialize (Hb w Hw).
  by destruct (body w) as [[a|e] w'].
Qed.

Lemma main_consistent (cu ct : nat -> timestamp) (n_users n_tasks : Z) :
  preserves world_consistent (Seed.main cu ct n_users n_tasks).
Proof.
  unfold Seed.main. apply preserves_bind; [by intros w Hw|]. intros _.
  apply with_connection_consistent.
  apply preserves_bind; [apply preserves_on_store, seed_status_consistent|].
  intros _. apply preserves_bind; [apply seed_users_consistent|].
  intros _. apply seed_tasks_consistent.
Qed.

End SeedConsistent.

(** X5: seeding keeps the schema's promises: from a store with unique
    keys, unique status names and emails and no dangling reference,
    seed_status, seed_users, seed_tasks and the whole of main end in such
    a store, whether they succeed or stop at an exception part of the way
    through a batch; in particular a run of main on a fresh store does. *)
Theorem seeding_consistent {RT : Runtime} (cu ct : nat -> timestamp)
    (n_users n_tasks : Z) (st : Store) (r : Rng) (f : Fk) :
  (consistent st ->
   consistent (Seed.seed_status st).2
   ∧ consistent (Seed.store (Seed.seed_users cu n_users
                   {| Seed.store := st; Seed.rng := r; Seed.fake := f |}).2)
   ∧ consistent (Seed.store (Seed.seed_tasks ct n_tasks
                   {| Seed.store := st; Seed.rng := r; Seed.fake := f |}).2)
   ∧ consistent (Seed.store (Seed.main cu ct n_users n_tasks
                   {| Seed.store := st; Seed.rng := r; Seed.fake := f |}).2))
  ∧ consistent (Seed.store (Seed.main cu ct n_users n_tasks
                  {| Seed.store := empty_store; Seed.rng := r; Seed.fake := f |}).2).
Proof.
  split.
  - intros Hst. split_and!.
    + by apply seed_status_consistent.
    + by apply (seed_users_consistent cu n_users).
    + by apply (seed_tasks_consistent ct n_tasks).
    + by apply (main_consistent cu ct n_users n_tasks).
  - apply (main_consistent cu ct n_users n_tasks).
    unfold world_consistent, consistent. simpl.
    split_and!; try apply NoDup_nil_2. intros t Ht. inversion Ht.
Qed.

(** ** manage_alt.py: cmd_users_without_tasks *)

Global Instance fullname_order_total : Total fullname_order.
Proof. intros a b. apply String.leb_total. Qed.

Lemma elem_of_select_users_without_tasks (st : Store) (u : UserRow) :
  u ∈ Manage.select_users_without_tasks st
  <-> u ∈ users st ∧ forall t, t ∈ tasks st -> task_user_id t ≠ user_id u.
Proof.
  unfold Manage.select_users_without_tasks.
  rewrite merge_sort_Permutation, list_elem_of_filter, has_no_task_iff. tauto.
Qed.

(** X6: users-without-tasks changes nothing and returns each user row
    that no task refers to, once for each time it is stored, and no other
    row, ordered by full name ascending (byte-wise); on a store with no
    task it returns every user. *)
Theorem cmd_users_without_tasks_spec (st : Store) :
  exists rows,
    Manage.cmd_users_without_tasks st = (Ok rows, st)
    ∧ Sorted fullname_order rows
    ∧ rows ≡ₚ filter (Manage.has_no_task st) (users st)
    ∧ (forall u, u ∈ rows
         <-> u ∈ users st ∧ forall t, t ∈ tasks st -> task_user_id t ≠ user_id u)
    ∧ (length rows <= length (users st))%nat
    ∧ (tasks st = [] -> rows ≡ₚ users st).
Proof.
  exists (Manage.select_users_without_tasks st). split; [done|].
  assert (Manage.select_users_without_tasks st
          ≡ₚ filter (Manage.has_no_task st) (users st)) as Hp
    by apply merge_sort_Permutation.
  split_and!.
  - apply (Sorted_merge_sort fullname_order).
  - exact Hp.
  - apply elem_of_select_users_without_tasks.
  - rewrite Hp. apply length_filter.
  - intros Hnone. rewrite Hp.
    assert (forall l, filter (Manage.has_no_task st) l = l) as ->; [|done].
    induction l as [|u l IH]; [done|].
    rewrite filter_cons, decide_True, IH; [done|].
    apply has_no_task_iff. intros t Ht. rewrite Hnone in Ht. inversion Ht.
Qed.

(** A successful add-task had an existing user and a defined status. *)
Lemma cmd_add_task_inv (now : timestamp) (uid : Z) (ttl : string)
    (desc : option string) (name : option string) (st st' : Store) (id : Z) :
  Manage.cmd_add_task now uid ttl desc name st = (Ok id, st') ->
  uid ∈ user_id <$> users st
  ∧ default "new"%string name ∈ status_name <$> status st.
Proof.
  intros Hrun.
  destruct (decide (uid ∈ user_id <$> users st)) as [Hu|Hu]; cycle 1.
  { unfold Manage.cmd_add_task in Hrun.
    erewrite bind_raise in Hrun by (by apply ensure_user_exists_absent). done. }
  split; [done|].
  destruct (decide (default "new"%string name ∈ status_name <$> status st))
    as [Hn|Hn]; [done|].
  unfold Manage.cmd_add_task in Hrun.
  erewrite bind_ok in Hrun by (by apply ensure_user_exists_ok).
  assert (match name with Some n => n | None => "new"%string end
          = default "new"%string name) as Hd by (by destruct name).
  rewrite Hd in Hrun.
  erewrite bind_raise in Hrun by (by apply status_id_by_name_absent). done.
Qed.

(** X7: once add-task has succeeded for a user, users-without-tasks no
    longer lists that user, and lists every other user exactly as it did
    before. *)
Theorem add_task_then_users_without_tasks (now : timestamp) (uid : Z)
    (ttl : string) (desc : option string) (name : option string)
    (st st' : Store) (id : Z) :
  Manage.cmd_add_task now uid ttl desc name st = (Ok id, st') ->
  exists rows rows',
    Manage.cmd_users_without_tasks st = (Ok rows, st)
    ∧ Manage.cmd_users_without_tasks st' = (Ok rows', st')
    ∧ (forall u, u ∈ rows' <-> u ∈ rows ∧ user_id u ≠ uid).
Proof.
  intros Hrun. destruct (cmd_add_task_inv _ _ _ _ _ _ _ _ Hrun) as [Hu Hn].
  destruct (cmd_add_task_run now uid ttl desc name st Hu Hn)
    as (s & _ & _ & Hrun').
  rewrite Hrun in Hrun'. injection Hrun' as _ ->.
  eexists _, _. split; [reflexivity|]. split; [reflexivity|].
  intros u. rewrite !elem_of_select_users_without_tasks. simpl. split.
  - intros [Hin Hno]. split; [split; [done|]|].
    + intros t Ht. apply Hno. apply elem_of_app. by left.
    + intros Heq. eapply (Hno _); [apply elem_of_app; right; left|]. done.
  - intros [[Hin Hno] Hne]. split; [done|].
    intros t Ht. apply elem_of_app in Ht as [Ht|Ht]; [by apply Hno|].
    apply list_elem_of_singleton in Ht as ->. simpl. congruence.
Qed.

Lemma add_task_then_users_without_tasks_witness :
  exists rows rows',
    Manage.cmd_users_without_tasks
      {| status := status sample_store; users := users sample_store; tasks := [] |}
    = (Ok rows, {| status := status sample_store; users := users sample_store;
                   tasks := [] |})
    ∧ length rows = 2%nat ∧ length rows' = 1%nat
    ∧ (forall u, u ∈ rows' <-> u ∈ rows ∧ user_id u ≠ 2).
Proof.
  destruct (add_task_then_users_without_tasks 50 2 "Plan the trip" None None
              {| status := status sample_store; users := users sample_store;
                 tasks := [] |}
              _ 1 eq_refl) as (rows & rows' & Hr & Hr' & Hiff).
  exists rows, rows'. split; [exact Hr|].
  injection Hr as <-. injection Hr' as <-.
  split; [by vm_compute|]. split; [by vm_compute|]. exact Hiff.
Defined.

(** ** manage_alt.py: update-status and add-task seen through list-inprogress *)

Lemma elem_of_insert_by_key (l : list TaskRow) (i : nat) (t t1 t' : TaskRow) :
  NoDup (task_id <$> l) -> l !! i = Some t ->
  t' ∈ <[i := t1]> l <-> t' = t1 ∨ (t' ∈ l ∧ task_id t' ≠ task_id t).
Proof.
  intros Hnd Hi. assert (i < length l)%nat as Hlt by (by eapply lookup_lt_Some).
  split.
  - intros Hin. apply list_elem_of_lookup in Hin as [j Hj].
    destruct (decide (i = j)) as [<-|Hne].
    + rewrite list_lookup_insert_eq in Hj by done. left. congruence.
    + rewrite list_lookup_insert_ne in Hj by done. right.
      split; [by eapply list_elem_of_lookup_2|].
      intros Heq. apply Hne. eapply NoDup_lookup; [exact Hnd| |];
        rewrite list_lookup_fmap; [by rewrite Hi|rewrite Hj; simpl; by rewrite Heq].
  - intros [->|[Hin Hne]]; [by apply list_elem_of_insert|].
    apply list_elem_of_lookup in Hin as [j Hj].
    apply list_elem_of_lookup. exists j.
    rewrite list_lookup_insert_ne; [done|]. intros <-. congruence.
Qed.

Lemma status_id_unique (st : Store) (s1 s2 : StatusRow) :
  NoDup (status_id <$> status st) ->
  s1 ∈ status st -> s2 ∈ status st -> status_id s1 = status_id s2 -> s1 = s2.
Proof.
  intros Hnd H1 H2 Heq.
  apply list_elem_of_lookup in H1 as [i Hi], H2 as [j Hj].
  assert (i = j) as ->.
  { eapply NoDup_lookup; [exact Hnd| |];
      rewrite list_lookup_fmap; [by rewrite Hi | by rewrite Hj, Heq]. }
  congruence.
Qed.

(** X8: after update-status has moved an existing task of a consistent
    store to a defined status, list-inprogress shows that task exactly
    when the status given was "in progress"; the rows of all other tasks
    are listed or not as before. *)
Theorem update_status_then_list (sch : Schema) (now : timestamp)
    (name : string) (st : Store) (i : nat) (t : TaskRow) :
  consistent st -> tasks st !! i = Some t ->
  name ∈ status_name <$> status st ->
  exists st1 rows rows1,
    Manage.cmd_update_status sch now (task_id t) name st = (Ok tt, st1)
    ∧ Manage.cmd_list_inprogress None st = (Ok rows, st)
    ∧ Manage.cmd_list_inprogress None st1 = (Ok rows1, st1)
    ∧ ((exists r, r ∈ rows1 ∧ Manage.row_task_id r = task_id t)
       <-> name = "in progress"%string)
    ∧ (forall r, Manage.row_task_id r ≠ task_id t -> r ∈ rows1 <-> r ∈ rows).
Proof.
  intros (Hsi & Hsn & Hui & Hue & Hti & Hfk) Hi Hname.
  destruct (cmd_update_status_ok sch now name st i t Hti Hi Hname)
    as (s & Hs & Hn & Hrun).
  set (t1 := Sql.update_row sch now (status_id s) t) in *.
  eexists _, _, _. split; [exact Hrun|].
  split; [reflexivity|]. split; [reflexivity|].
  cbn [Manage.cmd_list_inprogress].
  pose proof (elem_of_insert_by_key (tasks st) i t t1) as Hins.
  split.
  - split.
    + intros (r & Hr & Hid). apply elem_of_select_inprogress in Hr
        as (t' & s' & u' & Ht' & Hs' & Hu' & Hsid & Huid & Hnm & ->).
      simpl in *. apply Hins in Ht' as [->|[_ Hne]]; [|done|done|done].
      assert (s' = s) as -> by (by eapply (status_id_unique st)).
      congruence.
    + intros ->. destruct (Hfk t) as [_ Hu]; [by eapply list_elem_of_lookup_2|].
      apply list_elem_of_fmap in Hu as (u & Hu & Hin).
      exists (Manage.project (t1, s, u)). split; [|done].
      apply elem_of_select_inprogress. exists t1, s, u. simpl.
      split_and!; try done. by apply Hins; [| |left].
  - intros r Hid. rewrite !elem_of_select_inprogress. simpl.
    split; intros (t' & s' & u' & Ht' & Hs' & Hu' & Hsid & Huid & Hnm & ->);
      exists t', s', u'; split_and!; try done; simpl in Hid.
    + apply Hins in Ht' as [->|[? _]]; done.
    + apply Hins; [done|done|]. right. done.
Qed.

Lemma update_status_then_list_witness :
  exists st1 rows1,
    Manage.cmd_update_status spec_schema 100 1 "in progress" sample_store
    = (Ok tt, st1)
    ∧ Manage.cmd_list_inprogress None st1 = (Ok rows1, st1)
    ∧ exists r, r ∈ rows1 ∧ Manage.row_task_id r = 1.
Proof.
  destruct (update_status_then_list spec_schema 100 "in progress" sample_store
              0 (mkTask 1 "Write the report" None 1 1 10 10)
              sample_store_consistent eq_refl)
    as (st1 & rows & rows1 & Hrun & _ & Hlist & Hiff & _).
  - apply (bool_decide_unpack _). by vm_compute.
  - exists st1, rows1. split; [exact Hrun|]. split; [exact Hlist|].
    apply Hiff. reflexivity.
Defined.

(** ** manage_alt.py: list-inprogress does not depend on the storage order *)

Lemma bind_Permutation_ext {A B} (f g : A -> list B) (l1 l2 : list A) :
  (forall x, f x ≡ₚ g x) -> l1 ≡ₚ l2 -> l1 ≫= f ≡ₚ l2 ≫= g.
Proof.
  intros Hfg Hl. rewrite Hl. clear Hl l1.
  induction l2 as [|x l IH]; [done|]. simpl. by rewrite Hfg, IH.
Qed.

Lemma joined_Permutation (st1 st2 : Store) :
  status st1 ≡ₚ status st2 -> users st1 ≡ₚ users st2 -> tasks st1 ≡ₚ tasks st2 ->
  Sql.joined st1 ≡ₚ Sql.joined st2.
Proof.
  intros Hs Hu Ht. unfold Sql.joined.
  apply bind_Permutation_ext; [|done]. intros t.
  apply bind_Permutation_ext; [|by rewrite Hs]. intros s.
  apply bind_Permutation_ext; [done|by rewrite Hu].
Qed.

Lemma user_id_unique (st : Store) (u1 u2 : UserRow) :
  NoDup (user_id <$> users st) ->
  u1 ∈ users st -> u2 ∈ users st -> user_id u1 = user_id u2 -> u1 = u2.
Proof.
  intros Hnd H1 H2 Heq.
  apply list_elem_of_lookup in H1 as [i Hi], H2 as [j Hj].
  assert (i = j) as ->.
  { eapply NoDup_lookup; [exact Hnd| |];
      rewrite list_lookup_fmap; [by rewrite Hi | by rewrite Hj, Heq]. }
  congruence.
Qed.

Lemma task_id_unique (st : Store) (t1 t2 : TaskRow) :
  NoDup (task_id <$> tasks st) ->
  t1 ∈ tasks st -> t2 ∈ tasks st -> task_id t1 = task_id t2 -> t1 = t2.
Proof.
  intros Hnd H1 H2 Heq.
  apply list_elem_of_lookup in H1 as [i Hi], H2 as [j Hj].
  assert (i = j) as ->.
  { eapply NoDup_lookup; [exact Hnd| |];
      rewrite list_lookup_fmap; [by rewrite Hi | by rewrite Hj, Heq]. }
  congruence.
Qed.

(** With unique keys a joined row is determined by its task id. *)
Lemma joined_by_task_id (st : Store) (a b : TaskRow * StatusRow * UserRow) :
  NoDup (status_id <$> status st) -> NoDup (user_id <$> users st) ->
  NoDup (task_id <$> tasks st) ->
  a ∈ Sql.joined st -> b ∈ Sql.joined st ->
  task_id a.1.1 = task_id b.1.1 -> a = b.
Proof.
  intros Hsi Hui Hti Ha Hb Heq.
  destruct a as [[ta sa] ua], b as [[tb sb] ub]. simpl in Heq.
  apply elem_of_joined in Ha as (Hta & Hsa & Hua & Hsida & Huida).
  apply elem_of_joined in Hb as (Htb & Hsb & Hub & Hsidb & Huidb).
  assert (ta = tb) as -> by (by eapply (task_id_unique st)).
  assert (sa = sb) as -> by (eapply (status_id_unique st); congruence).
  assert (ua = ub) as -> by (eapply (user_id_unique st); congruence).
  done.
Qed.

(** X9: with unique keys the result of list-inprogress is fixed by the
    rows the three tables hold, not by the order they are stored in: two
    stores whose tables hold the same rows in any order give the same
    list, row for row, under every limit. This is what the tie-break on
    the task id buys. *)
Theorem list_inprogress_storage_order (limit : option Z) (st1 st2 : Store) :
  NoDup (status_id <$> status st1) -> NoDup (user_id <$> users st1) ->
  NoDup (task_id <$> tasks st1) ->
  status st1 ≡ₚ status st2 -> users st1 ≡ₚ users st2 -> tasks st1 ≡ₚ tasks st2 ->
  (Manage.cmd_list_inprogress limit st1).1 = (Manage.cmd_list_inprogress limit st2).1.
Proof.
  intros Hsi Hui Hti Hs Hu Ht.
  assert (Manage.select_inprogress st1 = Manage.select_inprogress st2) as Heq.
  { unfold Manage.select_inprogress. f_equal.
    pose proof (joined_Permutation st1 st2 Hs Hu Ht) as Hj.
    apply (StronglySorted_unique_strong join_order).
    - intros a b Ha Hb Hab Hba.
      rewrite merge_sort_Permutation in Ha, Hb.
      apply list_elem_of_filter in Ha as [_ Ha], Hb as [_ Hb].
      rewrite <- Hj in Hb. eapply (joined_by_task_id st1); try done.
      unfold join_order, Sql.desc_key, Manage.join_key in Hab, Hba.
      simpl in Hab, Hba. lia.
    - apply (StronglySorted_merge_sort join_order).
    - apply (StronglySorted_merge_sort join_order).
    - by rewrite !merge_sort_Permutation, Hj. }
  unfold Manage.cmd_list_inprogress. rewrite Heq.
  destruct limit as [n|]; [|done].
  destruct (decide _); [|done]. by destruct (decide _).
Qed.

Lemma list_inprogress_storage_order_witness :
  (Manage.cmd_list_inprogress (Some 1) sample_store).1
  = (Manage.cmd_list_inprogress (Some 1)
       {| status := reverse (status sample_store);
          users := reverse (users sample_store);
          tasks := reverse (tasks sample_store) |}).1.
Proof.
  apply (list_inprogress_storage_order (Some 1) sample_store);
    try (apply (bool_decide_unpack _); by vm_compute);
    simpl; by rewrite reverse_Permutation.
Defined.

(** ** seed.py: seed_users *)

Lemma executemany_insert_user_ok (clock : nat -> timestamp)
    (rows : list (string * string)) (st : Store) :
  NoDup (rows.*2) ->
  (forall m, m ∈ rows.*2 -> m ∉ email <$> users st) ->
  exists new,
    Sql.executemany Sql.insert_user clock rows st
    = (Ok tt, {| status := status st; users := users st ++ new;
                 tasks := tasks st |})
    ∧ (fun u => (fullname u, email u)) <$> new = rows
    ∧ (forall i u, new !! i = Some u -> user_created_at u = clock i).
Proof.
  revert clock st. induction rows as [|[name mail] rows IH]; intros clock st Hnd Hfresh.
  - exists []. rewrite app_nil_r. by destruct st.
  - apply NoDup_cons in Hnd as [Hmail Hnd]. simpl in Hmail.
    simpl. unfold bind at 1. unfold Sql.insert_user at 1.
    rewrite decide_False by (apply Hfresh; left).
    match goal with |- context [Sql.executemany _ ?c rows ?s] =>
      destruct (IH c s Hnd) as (new & Hrun & Hrows & Htime) end.
    { intros m Hm. simpl. rewrite fmap_app. intros Hin.
      apply elem_of_app in Hin as [Hin|Hin].
      - by apply (Hfresh m); [right|].
      - apply list_elem_of_singleton in Hin. simpl in Hin. by subst. }
    rewrite Hrun. simpl. eexists (_ :: new). split_and!.
    + by rewrite <- app_assoc.
    + rewrite fmap_cons. by f_equal.
    + intros [|i] u Hu; [by injection Hu as <-|]. by apply Htime.
Qed.

Lemma executemany_insert_user_collision (clock : nat -> timestamp)
    (rows : list (string * string)) (st : Store) :
  ¬ (NoDup (rows.*2) ∧ forall m, m ∈ rows.*2 -> m ∉ email <$> users st) ->
  (Sql.executemany Sql.insert_user clock rows st).1 = Raise IntegrityError.
Proof.
  revert clock st. induction rows as [|[name mail] rows IH]; intros clock st Hbad.
  - exfalso. apply Hbad. split; [constructor|]. intros m Hm. inversion Hm.
  - simpl. unfold bind at 1. unfold Sql.insert_user at 1.
    destruct (decide (mail ∈ email <$> users st)) as [Hin|Hout]; [done|].
    apply IH. intros [Hnd Hfresh]. apply Hbad. split.
    + apply NoDup_cons. split; [|done]. intros Hm.
      apply (Hfresh mail Hm). simpl. rewrite fmap_app.
      apply elem_of_app. right. left.
    + intros m Hm Hin. apply elem_of_cons in Hm as [->|Hm]; [done|].
      apply (Hfresh m Hm). simpl. rewrite fmap_app. apply elem_of_app. by left.
Qed.

Section SeedUsers.
Context {RT : Runtime}.

Lemma gen_users_eq (n : nat) (acc : list (string * string)) (w : Seed.World) :
  Seed.gen_users n acc w
  = (Ok (acc ++ (faker_rows n (Seed.fake w)).1),
     {| Seed.store := Seed.store w; Seed.rng := Seed.rng w;
        Seed.fake := (faker_rows n (Seed.fake w)).2 |}).
Proof.
  revert acc w. induction n as [|n IH]; intros acc w.
  - simpl. rewrite app_nil_r. by destruct w.
  - cbn [Seed.gen_users faker_rows].
    erewrite bind_ok by apply on_fake_eq.
    erewrite bind_ok by apply on_fake_eq.
    rewrite IH. cbn [Seed.store Seed.rng Seed.fake fst snd].
    by rewrite <- app_assoc.
Qed.

Lemma seed_users_ok (clock : nat -> timestamp) (n : Z) (w : Seed.World) :
  NoDup ((faker_rows (Z.to_nat n) (Seed.fake w)).1.*2) ->
  (forall m, m ∈ (faker_rows (Z.to_nat n) (Seed.fake w)).1.*2 ->
             m ∉ email <$> users (Seed.store w)) ->
  exists new,
    Seed.seed_users clock n w
    = (Ok tt,
       {| Seed.store := {| status := status (Seed.store w);
                           users := users (Seed.store w) ++ new;
                           tasks := tasks (Seed.store w) |};
          Seed.rng := Seed.rng w;
          Seed.fake := (faker_rows (Z.to_nat n) (Seed.fake w)).2 |})
    ∧ (fun u => (fullname u, email u)) <$> new
      = (faker_rows (Z.to_nat n) (Seed.fake w)).1
    ∧ length new = Z.to_nat n
    ∧ (forall i u, new !! i = Some u -> user_created_at u = clock i).
Proof.
  intros Hnd Hfresh. unfold Seed.seed_users.
  erewrite bind_ok by apply gen_users_eq. rewrite app_nil_l, on_store_eq.
  cbn [Seed.store Seed.rng Seed.fake].
  destruct (executemany_insert_user_ok clock _ (Seed.store w) Hnd Hfresh)
    as (new & Hrun & Hrows & Htime).
  rewrite Hrun. exists new. split_and!; try done.
  assert (length ((fun u => (fullname u, email u)) <$> new)
          = length (faker_rows (Z.to_nat n) (Seed.fake w)).1) as Hl
    by (by rewrite Hrows).
  rewrite length_fmap in Hl. rewrite Hl. clear.
  generalize (Seed.fake w). induction (Z.to_nat n) as [|m IH]; intros f; [done|].
  simpl. by rewrite IH.
Qed.

End SeedUsers.

(** X10: seed_users writes one user per requested row, in order, with
    the name and the lower-cased email Faker produced and the time of its
    own insert, and touches nothing else, provided these emails differ
    from one another and from those already stored; otherwise the batch
    stops at sqlite's IntegrityError. *)
Theorem seed_users_spec {RT : Runtime} (clock : nat -> timestamp) (n : Z)
    (w : Seed.World) :
  (NoDup ((faker_rows (Z.to_nat n) (Seed.fake w)).1.*2)
   ∧ (forall m, m ∈ (faker_rows (Z.to_nat n) (Seed.fake w)).1.*2 ->
                m ∉ email <$> users (Seed.store w)) ->
   exists new w',
     Seed.seed_users clock n w = (Ok tt, w')
     ∧ status (Seed.store w') = status (Seed.store w)
     ∧ tasks (Seed.store w') = tasks (Seed.store w)
     ∧ users (Seed.store w') = users (Seed.store w) ++ new
     ∧ length new = Z.to_nat n
     ∧ (fun u => (fullname u, email u)) <$> new
       = (faker_rows (Z.to_nat n) (Seed.fake w)).1
     ∧ (forall i u, new !! i = Some u -> user_created_at u = clock i)
     ∧ Seed.rng w' = Seed.rng w)
  ∧ (¬ (NoDup ((faker_rows (Z.to_nat n) (Seed.fake w)).1.*2)
        ∧ (forall m, m ∈ (faker_rows (Z.to_nat n) (Seed.fake w)).1.*2 ->
                     m ∉ email <$> users (Seed.store w))) ->
     (Seed.seed_users clock n w).1 = Raise IntegrityError).
Proof.
  split.
  - intros [Hnd Hfresh].
    destruct (seed_users_ok clock n w Hnd Hfresh) as (new & Hrun & Hrows & Hlen & Ht).
    eexists new, _. split; [exact Hrun|]. simpl. split_and!; done.
  - intros Hbad. unfold Seed.seed_users.
    erewrite bind_ok by apply gen_users_eq. rewrite app_nil_l, on_store_eq.
    cbn [fst Seed.store]. by apply executemany_insert_user_collision.
Qed.

(** ** seed.py: main, as a whole *)

Section SeedMain.
Context {RT : Runtime}.

Lemma seed_tasks_guard (clock : nat -> timestamp) (n : Z) (w : Seed.World) :
  users (Seed.store w) = [] ->
  Seed.seed_tasks clock n w
  = (Raise (RuntimeError "Users/status must be populated before tasks"), w).
Proof.
  intros Hu. unfold Seed.seed_tasks.
  erewrite bind_ok by apply get_ids_users.
  erewrite bind_ok by apply get_ids_status. by rewrite Hu.
Qed.

Lemma main_unfold (cu ct : nat -> timestamp) (n_users n_tasks : Z) (w : Seed.World) :
  Seed.main cu ct n_users n_tasks w
  = Seed.with_connection
      (on_store_status <- Seed.on_store Seed.seed_status ;;
       Seed.seed_users cu n_users ;;;
       Seed.seed_tasks ct n_tasks)
      {| Seed.store := Seed.store w; Seed.rng := random_seed 1337;
         Seed.fake := Faker_seed 1337 |}.
Proof. reflexivity. Qed.

End SeedMain.

(** X11: a run of main is all or nothing: whenever it ends in an
    exception the store is what it was before the run, also when rows had
    already been inserted. So with --users 0 or less against a store
    without users the run stops at seed_tasks' RuntimeError and not even
    the statuses that seed_status had inserted are kept. *)
Theorem main_failure_rolls_back {RT : Runtime} (cu ct : nat -> timestamp)
    (n_users n_tasks : Z) (w : Seed.World) :
  (forall e, (Seed.main cu ct n_users n_tasks w).1 = Raise e ->
             Seed.store (Seed.main cu ct n_users n_tasks w).2 = Seed.store w)
  ∧ (n_users <= 0 -> users (Seed.store w) = [] ->
     (Seed.main cu ct n_users n_tasks w).1
     = Raise (RuntimeError "Users/status must be populated before tasks")
     ∧ Seed.store (Seed.main cu ct n_users n_tasks w).2 = Seed.store w).
Proof.
  assert (forall e, (Seed.main cu ct n_users n_tasks w).1 = Raise e ->
             Seed.store (Seed.main cu ct n_users n_tasks w).2 = Seed.store w)
    as Hroll.
  { intros e. rewrite main_unfold. unfold Seed.with_connection.
    by destruct (bind _ _ _) as [[a|e'] w']. }
  split; [exact Hroll|]. intros Hn Hu.
  assert ((Seed.main cu ct n_users n_tasks w).1
          = Raise (RuntimeError "Users/status must be populated before tasks"))
    as Hfail; [|split; [done|by eapply Hroll]].
  rewrite main_unfold. unfold Seed.with_connection.
  set (w0 := {| Seed.store := Seed.store w; Seed.rng := random_seed 1337;
                Seed.fake := Faker_seed 1337 |}).
  destruct (insert_statuses_run Seed.DEFAULT_STATUSES (Seed.store w))
    as (st1 & Hst & Hus & _).
  assert (Seed.on_store Seed.seed_status w0
          = (Ok tt, {| Seed.store := st1; Seed.rng := random_seed 1337;
                       Seed.fake := Faker_seed 1337 |})) as H1.
  { rewrite on_store_eq. unfold w0. simpl.
    change Seed.seed_status with (insert_statuses Seed.DEFAULT_STATUSES).
    by rewrite Hst. }
  erewrite bind_ok by exact H1.
  assert (Z.to_nat n_users = 0%nat) as Hz by lia.
  match goal with |- context [bind (Seed.seed_users cu n_users) _ ?w1] =>
    destruct (seed_users_ok cu n_users w1) as (new & H2 & _ & Hlen & _) end.
  { rewrite Hz. simpl. constructor. }
  { rewrite Hz. simpl. intros m Hm. inversion Hm. }
  erewrite bind_ok by exact H2.
  rewrite Hz in Hlen. destruct new; [|done].
  rewrite seed_tasks_guard; [done|]. simpl. by rewrite app_nil_r, Hus.
Qed.

(** X12: from a fresh store, with 1 <= --users, and provided the emails
    Faker yields for the run are pairwise distinct, main succeeds and
    leaves exactly the three statuses new, in progress and completed with
    ids 1, 2, 3, one user per requested user with Faker's names and
    emails, and one task per requested task; task i (from 0) has status
    id 1 + i mod 3 and both timestamps at the time of its insert, and the
    store keeps unique keys and references. *)
Theorem main_populates {RT : Runtime} {RL : RuntimeLaws RT}
    (cu ct : nat -> timestamp) (n_users n_tasks : Z) (r : Rng) (f : Fk) :
  1 <= n_users <= 2 ^ 53 ->
  NoDup ((faker_rows (Z.to_nat n_users) (Faker_seed 1337)).1.*2) ->
  exists w',
    Seed.main cu ct n_users n_tasks
      {| Seed.store := empty_store; Seed.rng := r; Seed.fake := f |} = (Ok tt, w')
    ∧ status (Seed.store w')
      = [mkStatus 1 "new"; mkStatus 2 "in progress"; mkStatus 3 "completed"]
    ∧ length (users (Seed.store w')) = Z.to_nat n_users
    ∧ (fun u => (fullname u, email u)) <$> users (Seed.store w')
      = (faker_rows (Z.to_nat n_users) (Faker_seed 1337)).1
    ∧ length (tasks (Seed.store w')) = Z.to_nat n_tasks
    ∧ (forall i t, tasks (Seed.store w') !! i = Some t ->
         task_status_id t = 1 + Z.of_nat (i mod 3)
         ∧ created_at t = ct i ∧ updated_at t = ct i
         ∧ task_user_id t ∈ user_id <$> users (Seed.store w'))
    ∧ consistent (Seed.store w').
Proof.
  intros Hn Hnd.
  pose proof (main_consistent cu ct n_users n_tasks
                {| Seed.store := empty_store; Seed.rng := r; Seed.fake := f |})
    as Hcons.
  rewrite main_unfold in *. unfold Seed.with_connection in *.
  cbn [Seed.store] in *.
  set (w0 := {| Seed.store := empty_store; Seed.rng := random_seed 1337;
                Seed.fake := Faker_seed 1337 |}) in *.
  assert (Seed.on_store Seed.seed_status w0
          = (Ok tt,
             {| Seed.store :=
                  {| status := [mkStatus 1 "new"; mkStatus 2 "in progress";
                                mkStatus 3 "completed"];
                     users := []; tasks := [] |};
                Seed.rng := random_seed 1337; Seed.fake := Faker_seed 1337 |}))
    as H1 by reflexivity.
  erewrite bind_ok in * by exact H1.
  match type of Hcons with context [bind (Seed.seed_users cu n_users) _ ?w1] =>
    destruct (seed_users_ok cu n_users w1) as (new & H2 & Hrows & Hlen & _) end.
  { exact Hnd. }
  { intros m _ Hm. inversion Hm. }
  erewrite bind_ok in * by exact H2. cbn [Seed.store Seed.rng Seed.fake status users tasks] in *.
  rewrite app_nil_l in *.
  match type of Hcons with context [Seed.seed_tasks ct n_tasks ?w2] =>
    destruct (seed_tasks_ok ct n_tasks w2)
      as (newt & w3 & picked & H3 & Hst & Hus & Hts & Hlt & _ & Hsub & _ & Hall) end.
  { simpl. destruct new; [simpl in Hlen; lia|done]. }
  { done. }
  { simpl. rewrite Hlen. lia. }
  rewrite H3 in *. exists w3. split; [done|].
  cbn [Seed.store status users tasks] in *.
  rewrite Hst, Hus, Hts. split_and!; try done.
  - intros i t Ht. destruct (Hall i t Ht) as (Hsid & Hown & Hc & Hu).
    split_and!; try done.
    + cbn [length fmap list_fmap status_id] in Hsid.
      pose proof (Nat.mod_upper_bound i 3 ltac:(lia)) as Hlt3.
      destruct (i mod 3)%nat as [|[|[|k]]]; [| | |lia];
        cbn in Hsid; injection Hsid as <-; done.
    + by eapply elem_of_submseteq.
  - apply Hcons. unfold world_consistent, consistent. simpl.
    split_and!; try apply NoDup_nil_2. intros t Ht. inversion Ht.
Qed.

Lemma main_populates_witness :
  exists w',
    Seed.main (RT := Tape.runtime) (fun _ => 6) (fun i => 7 + Z.of_nat i) 4 6
      (tape_world empty_store []) = (Ok tt, w')
    ∧ length (users (Seed.store w')) = 4%nat
    ∧ length (tasks (Seed.store w')) = 6%nat.
Proof.
  destruct (main_populates (RL := tape_laws) (fun _ => 6)
              (fun i => 7 + Z.of_nat i) 4 6 [] 0%nat)
    as (w' & Hrun & _ & Hu & _ & Ht & _).
  - split; [lia|by vm_compute].
  - apply (bool_decide_unpack _). by vm_compute.
  - exists w'. exact (conj Hrun (conj Hu Ht)).
Defined.

(** ** seed.py: the users seed_tasks leaves without tasks *)

(** X13: after seed_tasks has run on a store that held users with
    distinct ids and no task, users-without-tasks lists every user that
    was not selected to receive tasks, so at least
    N_u - max(1, int(N_u * f)) users, which is at least 0.25 * N_u - 1.
    (It may list more: a selected user that no draw picked has no task
    either.) *)
Theorem seed_tasks_leaves_users_without_tasks {RT : Runtime}
    {RL : RuntimeLaws RT} (clock : nat -> timestamp) (n : Z) (w : Seed.World) :
  users (Seed.store w) ≠ [] -> status (Seed.store w) ≠ [] ->
  Z.of_nat (length (users (Seed.store w))) <= 2 ^ 53 ->
  NoDup (user_id <$> users (Seed.store w)) ->
  tasks (Seed.store w) = [] ->
  exists S w1 w' rows,
    Seed.select_users_with_tasks (user_id <$> users (Seed.store w)) w = (Ok S, w1)
    ∧ Seed.seed_tasks clock n w = (Ok tt, w')
    ∧ Manage.cmd_users_without_tasks (Seed.store w') = (Ok rows, Seed.store w')
    ∧ (forall u, u ∈ users (Seed.store w) -> user_id u ∉ S -> u ∈ rows)
    ∧ Z.of_nat (length (users (Seed.store w)))
      - Seed.sample_size (length (users (Seed.store w)))
          (random_uniform 0.65 0.75 (Seed.rng w)).1
      <= Z.of_nat (length rows)
    ∧ (0.25 * inject_Z (Z.of_nat (length (users (Seed.store w)))) - 1
       <= inject_Z (Z.of_nat (length rows)))%Q.
Proof.
  intros Hu Hs Hbig Hnd Hnone.
  destruct (seed_tasks_ok clock n w Hu Hs Hbig)
    as (new & w' & picked & Hrun & _ & Hus & Hts & _ & Hsel & Hsub & Hlen & Hall).
  destruct (Seed.select_users_with_tasks _ w) as [o w1] eqn:Hsel'.
  simpl in Hsel. subst o.
  exists (list_to_set picked), w1, w', (Manage.select_users_without_tasks (Seed.store w')).
  split; [done|]. split; [done|]. split; [done|].
  assert (forall u, u ∈ users (Seed.store w) -> user_id u ∉ picked ->
                    Manage.has_no_task (Seed.store w') u) as Hfree.
  { intros u Hin Hout. apply has_no_task_iff. intros t Ht Heq.
    rewrite Hts, Hnone, app_nil_l in Ht.
    apply list_elem_of_lookup in Ht as [i Hi].
    destruct (Hall i t Hi) as (_ & Hown & _). apply Hout. by rewrite <- Heq. }
  assert (Z.of_nat (length (users (Seed.store w)))
          - Seed.sample_size (length (users (Seed.store w)))
              (random_uniform 0.65 0.75 (Seed.rng w)).1
          <= Z.of_nat (length (Manage.select_users_without_tasks (Seed.store w'))))
    as Hcount.
  { unfold Manage.select_users_without_tasks.
    rewrite merge_sort_Permutation, Hus, <- Hlen.
    pose proof (length_filter_split (fun u => user_id u ∈ picked)
                  (users (Seed.store w))) as Hsplit.
    pose proof (length_filter_by_key (users (Seed.store w)) picked Hnd) as Hkey.
    pose proof (length_filter_mono (fun u => ¬ user_id u ∈ picked)
                  (Manage.has_no_task (Seed.store w')) (users (Seed.store w))
                  Hfree) as Hmono.
    lia. }
  split_and!.
  - intros u Hin Hout. apply elem_of_select_users_without_tasks.
    rewrite Hus. split; [done|]. apply has_no_task_iff, Hfree; [done|].
    intros Hp. apply Hout. by apply elem_of_list_to_set.
  - exact Hcount.
  - destruct (uniform_range 0.65 0.75 (Seed.rng w)) as [Hlo Hhi]; [lra|].
    assert (1 <= length (users (Seed.store w)))%nat as Hn
      by (destruct (users (Seed.store w)); [done|simpl; lia]).
    destruct (sample_size_bounds (length (users (Seed.store w))) _ Hn Hbig Hlo Hhi)
      as (_ & _ & Hnear).
    destruct (complement_bounds (length (users (Seed.store w))) _ _ Hlo Hhi Hnear)
      as [Hc _].
    eapply Qle_trans; [exact Hc|]. by rewrite <- Zle_Qle.
Qed.

Lemma seed_tasks_leaves_users_without_tasks_witness :
  exists w' rows,
    Seed.seed_tasks (RT := Tape.runtime) (fun _ => 20) 5
      (tape_world {| status := status sample_store; users := users sample_store;
                     tasks := [] |} [(11 # 16)%Q; (1 # 4)%Q]) = (Ok tt, w')
    ∧ Manage.cmd_users_without_tasks (Seed.store w') = (Ok rows, Seed.store w')
    ∧ 1 <= Z.of_nat (length rows).
Proof.
  destruct (seed_tasks_leaves_users_without_tasks (RL := tape_laws) (fun _ => 20) 5
              (tape_world {| status := status sample_store;
                             users := users sample_store; tasks := [] |}
                          [(11 # 16)%Q; (1 # 4)%Q]))
    as (S & w1 & w' & rows & _ & Hrun & Hlist & _ & Hcount & _).
  - discriminate.
  - discriminate.
  - by vm_compute.
  - apply (bool_decide_unpack _). by vm_compute.
  - reflexivity.
  - exists w', rows. split; [exact Hrun|]. split; [exact Hlist|].
    eapply Z.le_trans; [|exact Hcount]. by vm_compute.
Defined.

(** ** manage_alt.py: what stands first in list-inprogress *)

Lemma head_of_sorted (l : list Manage.ListRow) (r0 : Manage.ListRow) :
  StronglySorted row_order l -> r0 ∈ l ->
  (forall r, r ∈ l -> row_order r r0 -> r = r0) ->
  head l = Some r0.
Proof.
  intros Hs Hin Hmax. destruct Hs as [|h tl Hs Hall]; [by inversion Hin|].
  simpl. f_equal. apply elem_of_cons in Hin as [->|Hin]; [done|].
  apply Hmax; [left|]. rewrite Forall_forall in Hall. by apply Hall.
Qed.

(** X14: on a consistent store whose updated_at values do not lie in the
    future, a task added with status "in progress" stands first in
    list-inprogress, with the id add-task returned and the given title: it
    is at least as recent as every other task and has the largest id.
    Added with another status, "new" when none is given, it is not
    listed. *)
Theorem add_task_then_list (now : timestamp) (uid : Z) (ttl : string)
    (desc : option string) (name : option string) (st : Store) :
  consistent st ->
  uid ∈ user_id <$> users st ->
  default "new"%string name ∈ status_name <$> status st ->
  (forall t, t ∈ tasks st -> updated_at t <= now) ->
  exists id st' rows',
    Manage.cmd_add_task now uid ttl desc name st = (Ok id, st')
    ∧ Manage.cmd_list_inprogress None st' = (Ok rows', st')
    ∧ ((exists r, r ∈ rows' ∧ Manage.row_task_id r = id)
       <-> default "new"%string name = "in progress"%string)
    ∧ (default "new"%string name = "in progress"%string ->
       exists r, head rows' = Some r ∧ Manage.row_task_id r = id
                 ∧ Manage.row_title r = ttl ∧ Manage.row_updated_at r = now).
Proof.
  intros (Hsi & Hsn & Hui & Hue & Hti & Hfk) Hu Hn Hpast.
  destruct (cmd_add_task_run now uid ttl desc name st Hu Hn)
    as (s & Hs & Hname & Hrun).
  set (t := {| task_id := next_id (task_id <$> tasks st);
               title := ttl; description := desc;
               task_status_id := status_id s; task_user_id := uid;
               created_at := now; updated_at := now |}) in *.
  set (st' := {| status := status st; users := users st;
                 tasks := tasks st ++ [t] |}) in *.
  exists (task_id t), st', (Manage.select_inprogress st').
  split; [exact Hrun|]. split; [done|].
  apply list_elem_of_fmap in Hu as (u & -> & Hu).
  assert (forall t' s' u', (t', s', u') ∈ Sql.joined st' -> task_id t' = task_id t ->
                           (t', s', u') = (t, s, u)) as Hkey.
  { intros t' s' u' Hj Hid.
    apply elem_of_joined in Hj as (Ht' & Hs' & Hu' & Hsid & Huid). simpl in *.
    apply elem_of_app in Ht' as [Ht'|Ht'].
    - exfalso. assert (task_id t' < next_id (task_id <$> tasks st)) as Hlt
        by (apply next_id_above, list_elem_of_fmap; by exists t').
      change (task_id t) with (next_id (task_id <$> tasks st)) in Hid. lia.
    - apply list_elem_of_singleton in Ht' as ->.
      assert (s' = s) as -> by (by eapply (status_id_unique st)).
      assert (u' = u) as -> by (by eapply (user_id_unique st)). done. }
  assert (default "new"%string name = "in progress"%string ->
          Manage.project (t, s, u) ∈ Manage.select_inprogress st') as Hlisted.
  { intros Heq. apply elem_of_select_inprogress. exists t, s, u. simpl.
    split_and!; try done; [apply elem_of_app; right; left|congruence]. }
  split.
  - split.
    + intros (r & Hr & Hid). apply elem_of_select_inprogress in Hr
        as (t' & s' & u' & Ht' & Hs' & Hu' & Hsid & Huid & Hnm & ->).
      simpl in Hid.
      assert ((t', s', u') = (t, s, u)) as [= -> -> ->]
        by (apply Hkey; [by apply elem_of_joined|done]).
      congruence.
    + intros Heq. exists (Manage.project (t, s, u)). split; [by apply Hlisted|done].
  - intros Heq. exists (Manage.project (t, s, u)). split; [|done].
    apply head_of_sorted; [apply select_inprogress_sorted|by apply Hlisted|].
    intros r Hr Hord. apply elem_of_select_inprogress in Hr
      as (t' & s' & u' & Ht' & Hs' & Hu' & Hsid & Huid & Hnm & ->).
    f_equal. apply Hkey; [by apply elem_of_joined|].
    unfold row_order, Sql.desc_key, Manage.row_key in Hord. simpl in Hord.
    simpl in Ht'. apply elem_of_app in Ht' as [Ht'|Ht'];
      [|by apply list_elem_of_singleton in Ht' as ->].
    exfalso. specialize (Hpast t' Ht').
    assert (task_id t' < next_id (task_id <$> tasks st))
      by (apply next_id_above, list_elem_of_fmap; by exists t').
    lia.
Qed.

Lemma add_task_then_list_witness :
  exists id st' rows',
    Manage.cmd_add_task 12 2 "Plan the trip" None (Some "in progress"%string)
      sample_store = (Ok id, st')
    ∧ Manage.cmd_list_inprogress None st' = (Ok rows', st')
    ∧ exists r, head rows' = Some r ∧ Manage.row_task_id r = id
                ∧ Manage.row_title r = "Plan the trip"%string.
Proof.
  destruct (add_task_then_list 12 2 "Plan the trip" None
              (Some "in progress"%string) sample_store sample_store_consistent)
    as (id & st' & rows' & Hrun & Hlist & _ & Hhead).
  - apply (bool_decide_unpack _). by vm_compute.
  - apply (bool_decide_unpack _). by vm_compute.
  - intros t Ht. simpl in Ht.
    repeat (apply elem_of_cons in Ht as [->|Ht]); [| | |by inversion Ht];
      simpl; lia.
  - exists id, st', rows'. split; [exact Hrun|]. split; [exact Hlist|].
    destruct (Hhead eq_refl) as (r & Hr & Hid & Httl & _).
    exists r. exact (conj Hr (conj Hid Httl)).
Defined.

(** X15: when the schema maintains updated_at, moving an existing task
    of a consistent store to "in progress" at a time later than every
    other task's updated_at puts it first in list-inprogress, with its
    updated_at at the current time and its created_at untouched. *)
Theorem update_status_tops_list (sch : Schema) (now : timestamp) (st : Store)
    (i : nat) (t : TaskRow) :
  consistent st -> tasks st !! i = Some t ->
  "in progress"%string ∈ status_name <$> status st ->
  touch_updated_at sch = true ->
  (forall t', t' ∈ tasks st -> task_id t' ≠ task_id t -> updated_at t' < now) ->
  exists st1 rows1 r,
    Manage.cmd_update_status sch now (task_id t) "in progress" st = (Ok tt, st1)
    ∧ Manage.cmd_list_inprogress None st1 = (Ok rows1, st1)
    ∧ head rows1 = Some r
    ∧ Manage.row_task_id r = task_id t
    ∧ Manage.row_updated_at r = now
    ∧ Manage.row_created_at r = created_at t.
Proof.
  intros (Hsi & Hsn & Hui & Hue & Hti & Hfk) Hi Hname Htouch Hpast.
  destruct (cmd_update_status_ok sch now _ st i t Hti Hi Hname)
    as (s & Hs & Hn & Hrun).
  set (t1 := Sql.update_row sch now (status_id s) t) in *.
  set (st1 := {| status := status st; users := users st;
                 tasks := <[i := t1]> (tasks st) |}) in *.
  destruct (Hfk t) as [_ Hu]; [by eapply list_elem_of_lookup_2|].
  apply list_elem_of_fmap in Hu as (u & Hu & Hin).
  pose proof (fun t' => elem_of_insert_by_key (tasks st) i t t1 t' Hti Hi) as Hins.
  exists st1, (Manage.select_inprogress st1), (Manage.project (t1, s, u)).
  split; [exact Hrun|]. split; [done|].
  split; [|by simpl; rewrite Htouch].
  apply head_of_sorted; [apply select_inprogress_sorted| |].
  - apply elem_of_select_inprogress. exists t1, s, u. simpl.
    split_and!; try done. apply Hins. by left.
  - intros r Hr Hord. apply elem_of_select_inprogress in Hr
      as (t' & s' & u' & Ht' & Hs' & Hu' & Hsid & Huid & Hnm & ->).
    unfold row_order, Sql.desc_key, Manage.row_key in Hord.
    simpl in Hord, Ht', Hs', Hu'. rewrite Htouch in Hord.
    apply Hins in Ht' as [->|[Ht' Hne]].
    + assert (s' = s) as -> by (by eapply (status_id_unique st)).
      assert (u' = u) as -> by (eapply (user_id_unique st); [done..|];
                                simpl in Huid; congruence).
      done.
    + exfalso. specialize (Hpast t' Ht' Hne). lia.
Qed.

Lemma update_status_tops_list_witness :
  exists st1 rows1 r,
    Manage.cmd_update_status spec_schema 100 1 "in progress" sample_store
    = (Ok tt, st1)
    ∧ Manage.cmd_list_inprogress None st1 = (Ok rows1, st1)
    ∧ head rows1 = Some r ∧ Manage.row_task_id r = 1.
Proof.
  destruct (update_status_tops_list spec_schema 100 sample_store 0
              (mkTask 1 "Write the report" None 1 1 10 10)
              sample_store_consistent eq_refl)
    as (st1 & rows1 & r & Hrun & Hlist & Hhead & Hid & _).
  - apply (bool_decide_unpack _). by vm_compute.
  - reflexivity.
  - intros t Ht _. simpl in Ht.
    repeat (apply elem_of_cons in Ht as [->|Ht]); [| | |by inversion Ht];
      simpl; lia.
  - exists st1, rows1, r. exact (conj Hrun (conj Hlist (conj Hhead Hid))).
Defined.

(** ** manage_alt.py: update-status twice *)

Lemma update_row_twice (sch : Schema) (now now' : timestamp) (sid : Z) (t : TaskRow) :
  touch_updated_at sch = false ∨ now' = now ->
  Sql.update_row sch now' sid (Sql.update_row sch now sid t)
  = Sql.update_row sch now sid t.
Proof.
  intros [Hoff| ->]; unfold Sql.update_row; simpl; [by rewrite Hoff|].
  by destruct (touch_updated_at sch).
Qed.

Lemma status_id_by_name_same_status (name : string) (st st' : Store) (id : Z) :
  status st' = status st ->
  Manage.status_id_by_name name st = (Ok id, st) ->
  Manage.status_id_by_name name st' = (Ok id, st').
Proof.
  intros Heq. unfold Manage.status_id_by_name, Sql.select_status_ids_by_name.
  rewrite Heq. destruct (status_id <$> filter _ (status st)); [done|].
  by intros [= ->].
Qed.

(** X16: update-status is idempotent: once it has succeeded, the same
    command run again within the same second, or at any time when the
    schema does not maintain updated_at, succeeds and leaves the store
    exactly as the first run left it. *)
Theorem cmd_update_status_idempotent (sch : Schema) (now now' : timestamp)
    (tid : Z) (name : string) (st st1 : Store) :
  Manage.cmd_update_status sch now tid name st = (Ok tt, st1) ->
  touch_updated_at sch = false ∨ now' = now ->
  Manage.cmd_update_status sch now' tid name st1 = (Ok tt, st1).
Proof.
  intros Hrun Hsame. unfold Manage.cmd_update_status in *.
  destruct (decide (tid ∈ task_id <$> tasks st)) as [Ht|Ht]; cycle 1.
  { erewrite bind_raise in Hrun by (by apply ensure_task_exists_absent). done. }
  erewrite bind_ok in Hrun by (by apply ensure_task_exists_ok).
  destruct (decide (name ∈ status_name <$> status st)) as [Hn|Hn]; cycle 1.
  { erewrite bind_raise in Hrun by (by apply status_id_by_name_absent). done. }
  destruct (status_id_by_name_present name st Hn) as (s & Hs & Hname & Hr).
  erewrite bind_ok in Hrun by exact Hr.
  unfold Sql.update_task_status in Hrun.
  destruct (decide _) as [Hok|]; [|done]. injection Hrun as <-.
  set (upd := fun now0 (t : TaskRow) =>
                if decide (task_id t = tid)
                then Sql.update_row sch now0 (status_id s) t else t).
  assert (task_id <$> (upd now <$> tasks st) = task_id <$> tasks st) as Hids.
  { rewrite <- list_fmap_compose. apply list_fmap_ext. intros j t _.
    unfold upd. simpl. by destruct (decide _). }
  erewrite bind_ok; cycle 1.
  { apply ensure_task_exists_ok. simpl. fold (upd now). by rewrite Hids. }
  erewrite bind_ok; cycle 1.
  { eapply status_id_by_name_same_status; [|exact Hr]. done. }
  unfold Sql.update_task_status. rewrite decide_True; cycle 1.
  { right. simpl. apply list_elem_of_fmap. by exists s. }
  simpl. do 2 f_equal. fold (upd now) (upd now').
  rewrite <- list_fmap_compose. apply list_fmap_ext. intros j t _.
  unfold upd. simpl. destruct (decide (task_id t = tid)) as [Heq|Hne].
  - simpl. rewrite decide_True by done. by apply update_row_twice.
  - by rewrite decide_False.
Qed.

Lemma cmd_update_status_idempotent_witness :
  exists st1,
    Manage.cmd_update_status spec_schema 100 1 "completed" sample_store = (Ok tt, st1)
    ∧ Manage.cmd_update_status spec_schema 100 1 "completed" st1 = (Ok tt, st1).
Proof.
  eexists. split; [reflexivity|].
  apply (cmd_update_status_idempotent spec_schema 100 100 1 "completed" sample_store);
    [reflexivity|by right].
Defined.

(** ** manage_alt.py: main *)




(** ** manage_alt.py: print_table *)











